(** * Value objects of the INI library: folding, unfolding, serialization

    A shallow embedding of [src/ini/ini_valueobj.c].  The C code keeps one
    value in two forms: the unfolded buffer (one logical line) and two
    parallel arrays holding the folded physical lines and their lengths.

    Conventions of the embedding:
    - [uint32_t] is [Z] with the wrap-around written out ([wrap]);
    - a byte is an [ascii]; a C buffer is the [list ascii] of its bytes and
      a read one past its end yields the terminating NUL, as
      [simplebuffer] keeps its buffer NUL terminated;
    - [struct ref_array] is a list, [ref_array_append] adds at the end;
    - allocation never fails, so the only way [value_fold] does not hand
      back a result is by looping: its outer [while] is run with fuel and
      [None] means the fuel ran out. *)

From Stdlib Require Import ZArith Ascii String List Bool Lia.
Import ListNotations.

Local Open Scope Z_scope.

(** ** Machine integers and bytes *)

Definition wrap (x : Z) : Z := x mod 2 ^ 32.

Definition bytes := list ascii.

Definition NUL : ascii := "000"%char.
Definition SP : ascii := " "%char.
Definition TAB : ascii := "009"%char.

(** [buf[i]] for a NUL terminated buffer. *)
Definition buf_at (buf : bytes) (i : Z) : ascii := nth (Z.to_nat i) buf NUL.

(** [(c == ' ') || (c == '\t')] *)
Definition is_blank (c : ascii) : bool := Ascii.eqb c SP || Ascii.eqb c TAB.

(** [memcpy(dst, src, n)] seen from the destination: the first [n] bytes
    of [src]. *)
Definition read_bytes (src : bytes) (n : Z) : bytes := firstn (Z.to_nat n) src.

(** ** Collaborators: ref_array and simplebuffer *)

Definition ref_array (A : Type) := list A.

Definition ref_array_len {A} (ra : ref_array A) : Z := Z.of_nat (length ra).
Definition ref_array_get {A} (ra : ref_array A) (i : nat) : option A := nth_error ra i.
Definition ref_array_append {A} (ra : ref_array A) (x : A) : ref_array A := ra ++ [x].
Definition ref_array_reset {A} (ra : ref_array A) : ref_array A := [].

Definition simplebuffer := bytes.

Definition simplebuffer_alloc : simplebuffer := [].
Definition simplebuffer_add_raw (sb : simplebuffer) (data : bytes) (len : Z) : simplebuffer :=
  sb ++ read_bytes data len.
Definition simplebuffer_get_len (sb : simplebuffer) : Z := Z.of_nat (length sb).

(** ** value_unfold *)

(** The [for (;;)] of [value_unfold]: [len] keeps its previous value when
    the lengths array has no entry [i]. *)
Fixpoint unfold_loop (fuel : nat) (raw_lines : ref_array bytes) (raw_lengths : ref_array Z)
         (i : nat) (len : Z) (oneline : simplebuffer) : option simplebuffer :=
  match fuel with
  | O => None
  | S fuel' =>
      match ref_array_get raw_lines i with
      | Some part =>
          let len' := match ref_array_get raw_lengths i with
                      | Some l => l
                      | None => len
                      end in
          unfold_loop fuel' raw_lines raw_lengths (S i) len'
                      (simplebuffer_add_raw oneline part len')
      | None => Some oneline
      end
  end.

Definition value_unfold (raw_lines : ref_array bytes) (raw_lengths : ref_array Z)
  : option simplebuffer :=
  unfold_loop (S (length raw_lines)) raw_lines raw_lengths 0%nat 0 simplebuffer_alloc.

(** ** save_portion *)

Definition INI_FOLDING_OVERHEAD : Z := 3.

(** [buf] is the pointer handed in, that is the unfolded buffer from
    [start_place] on. *)
Definition save_portion (raw_lines : ref_array bytes) (raw_lengths : ref_array Z)
           (buf : bytes) (len : Z) : ref_array bytes * ref_array Z :=
  let adj : Z :=
    if negb (Ascii.eqb (buf_at buf 0) SP) &&
       negb (Ascii.eqb (buf_at buf 0) TAB) &&
       negb (len =? 0) &&
       negb (ref_array_len raw_lines =? 0)
    then 1 else 0 in
  let copy : bytes := (if adj =? 0 then [] else [SP]) ++ read_bytes buf len in
  let len' := wrap (len + adj) in
  (ref_array_append raw_lines copy, ref_array_append raw_lengths len').

(** ** value_fold *)

(** How the inner [for] was left: by [break], after it computed
    [fold_len], or because [i <= len] failed. *)
Inductive scan_exit :=
| Scan_break (next_place fold_len : Z) (done : bool)
| Scan_end (next_place fold_place : Z) (done : bool).

(** The inner [for (i = resume_place; i <= len; i++)], with [n] the
    number of iterations left.  [i <= len <= 2^32 - 2] (a simplebuffer
    of size at most [2^32 - 1] holds [len + 1] bytes), so [i++] does not
    wrap. *)
Fixpoint scan (n : nat) (buf : bytes) (len best_place start_place : Z)
         (i fold_place next_place : Z) (done : bool) : scan_exit :=
  match n with
  | O => Scan_end next_place fold_place done
  | S n' =>
      let found :=
        if i =? len then Some (i, true)
        else if is_blank (buf_at buf i) || ((best_place =? 0) && (i =? 0))
             then Some (i, done)
             else None in
      match found with
      | None => scan n' buf len best_place start_place (i + 1) fold_place next_place done
      | Some (next_place', done') =>
          if (next_place' >? best_place) || (next_place' =? 0) then
            let fold_len :=
              if (fold_place =? start_place) && negb (next_place' =? 0)
              then wrap (next_place' - start_place)
              else wrap (fold_place - start_place) in
            Scan_break next_place' fold_len done'
          else
            scan n' buf len best_place start_place (i + 1) next_place' next_place' done'
      end
  end.

(** The locals of [value_fold] that live across iterations of the outer
    [while], with the two arrays. *)
Record fold_vars := {
  start_place : Z;
  resume_place : Z;
  idx : Z;
  done : bool;
  lines : ref_array bytes;
  lengths : ref_array Z
}.

(** One pass through the body of [while (!done)]. *)
Definition fold_body (buf : bytes) (len key_len fold_bound : Z) (v : fold_vars) : fold_vars :=
  let best_place :=
    if idx v =? 0 then
      if fold_bound >? wrap (key_len + INI_FOLDING_OVERHEAD)
      then wrap (fold_bound - key_len - INI_FOLDING_OVERHEAD)
      else 0
    else fold_bound in
  let fold_place := start_place v in
  let next_place := start_place v in
  let best_place := wrap (best_place + start_place v) in
  let after_for :=
    match scan (Z.to_nat (len + 1 - resume_place v)) buf len best_place (start_place v)
               (resume_place v) fold_place next_place (done v) with
    | Scan_break next_place fold_len done' =>
        let (ls, ns) := save_portion (lines v) (lengths v)
                                     (skipn (Z.to_nat (start_place v)) buf) fold_len in
        ({| start_place := wrap (start_place v + fold_len);
            resume_place := next_place;
            idx := wrap (idx v + 1);
            done := done';
            lines := ls;
            lengths := ns |}, next_place)
    | Scan_end next_place _ done' =>
        ({| start_place := start_place v;
            resume_place := resume_place v;
            idx := idx v;
            done := done';
            lines := lines v;
            lengths := lengths v |}, next_place)
    end in
  let (v1, next_place) := after_for in
  if done v1 then
    let (ls, ns) := save_portion (lines v1) (lengths v1)
                                 (skipn (Z.to_nat (start_place v1)) buf)
                                 (wrap (next_place - start_place v1)) in
    {| start_place := start_place v1;
       resume_place := resume_place v1;
       idx := wrap (idx v1 + 1);
       done := true;
       lines := ls;
       lengths := ns |}
  else v1.

(** [while (!done) { ... }] *)
Fixpoint fold_loop (fuel : nat) (buf : bytes) (len key_len fold_bound : Z) (v : fold_vars)
  : option fold_vars :=
  if done v then Some v
  else match fuel with
       | O => None
       | S fuel' => fold_loop fuel' buf len key_len fold_bound (fold_body buf len key_len fold_bound v)
       end.

Definition value_fold (fuel : nat) (unfolded : simplebuffer) (key_len fold_bound : Z)
           (raw_lines : ref_array bytes) (raw_lengths : ref_array Z)
  : option (ref_array bytes * ref_array Z) :=
  let raw_lines := ref_array_reset raw_lines in
  let raw_lengths := ref_array_reset raw_lengths in
  let len := simplebuffer_get_len unfolded in
  let fold_bound := if fold_bound =? 0 then fold_bound + 1 else fold_bound in
  match fold_loop fuel unfolded len key_len fold_bound
                  {| start_place := 0; resume_place := 0; idx := 0; done := false;
                     lines := raw_lines; lengths := raw_lengths |} with
  | Some v => Some (lines v, lengths v)
  | None => None
  end.

(** ** The value object *)

(** [struct ini_comment] seen through [ini_comment_get_numlines] and
    [ini_comment_get_line]: its lines in order, each with its length. *)
Definition ini_comment := list bytes.

Definition ini_comment_get_numlines (ic : ini_comment) : nat := length ic.
Definition ini_comment_get_line (ic : ini_comment) (i : nat) : bytes * Z :=
  let l := nth i ic [] in (l, Z.of_nat (length l)).

(** [struct value_obj].  The constructors refuse or never build an object
    with a NULL array, so the arrays are always there; [ic] may be NULL. *)
Record value_obj := {
  raw_lines : ref_array bytes;
  raw_lengths : ref_array Z;
  unfolded : simplebuffer;
  origin : Z;
  line : Z;
  keylen : Z;
  boundary : Z;
  ic : option ini_comment
}.

Definition INI_EQUAL_SIGN : bytes := [SP; "="%char; SP].

Definition value_create_from_refarray (raw_lines : ref_array bytes) (raw_lengths : ref_array Z)
           (line origin key_len boundary : Z) (ic : option ini_comment) : option value_obj :=
  match value_unfold raw_lines raw_lengths with
  | Some oneline =>
      Some {| raw_lines := raw_lines; raw_lengths := raw_lengths; unfolded := oneline;
              origin := origin; line := line; keylen := key_len; boundary := boundary;
              ic := ic |}
  | None => None
  end.

(** [value_create_arrays] *)
Definition value_create_arrays : ref_array bytes * ref_array Z := ([], []).

(** [value_add_to_arrays]: the arrays keep the pointer and the length
    they are given. *)
Definition value_add_to_arrays (strvalue : bytes) (len : Z)
           (raw_lines : ref_array bytes) (raw_lengths : ref_array Z)
  : ref_array bytes * ref_array Z :=
  (ref_array_append raw_lines strvalue, ref_array_append raw_lengths len).

Definition value_create_new (fuel : nat) (strvalue : bytes) (length origin key_len boundary : Z)
           (ic : option ini_comment) : option value_obj :=
  let oneline := simplebuffer_add_raw simplebuffer_alloc strvalue length in
  let (new_lines, new_lengths) := value_create_arrays in
  match value_fold fuel oneline key_len boundary new_lines new_lengths with
  | Some (ls, ns) =>
      Some {| raw_lines := ls; raw_lengths := ns; unfolded := oneline;
              origin := origin; line := 0; keylen := key_len; boundary := boundary;
              ic := ic |}
  | None => None
  end.

Definition value_get_concatenated (vo : value_obj) : bytes := unfolded vo.
Definition value_get_origin (vo : value_obj) : Z := origin vo.
Definition value_get_line (vo : value_obj) : Z := line vo.

Definition value_set_keylen (fuel : nat) (vo : value_obj) (key_len : Z) : option value_obj :=
  match value_fold fuel (unfolded vo) key_len (boundary vo) (raw_lines vo) (raw_lengths vo) with
  | Some (ls, ns) =>
      Some {| raw_lines := ls; raw_lengths := ns; unfolded := unfolded vo;
              origin := origin vo; line := line vo; keylen := key_len;
              boundary := boundary vo; ic := ic vo |}
  | None => None
  end.

Definition value_update (fuel : nat) (vo : value_obj) (value : bytes)
           (length origin boundary : Z) : option value_obj :=
  let oneline := simplebuffer_add_raw simplebuffer_alloc value length in
  match value_fold fuel oneline (keylen vo) boundary (raw_lines vo) (raw_lengths vo) with
  | Some (ls, ns) =>
      Some {| raw_lines := ls; raw_lengths := ns; unfolded := oneline;
              origin := origin; line := line vo; keylen := keylen vo;
              boundary := boundary; ic := ic vo |}
  | None => None
  end.

Definition value_extract_comment (vo : value_obj) : value_obj * option ini_comment :=
  ({| raw_lines := raw_lines vo; raw_lengths := raw_lengths vo; unfolded := unfolded vo;
      origin := origin vo; line := line vo; keylen := keylen vo;
      boundary := boundary vo; ic := None |}, ic vo).

Definition value_put_comment (vo : value_obj) (c : ini_comment) : value_obj :=
  {| raw_lines := raw_lines vo; raw_lengths := raw_lengths vo; unfolded := unfolded vo;
     origin := origin vo; line := line vo; keylen := keylen vo;
     boundary := boundary vo; ic := Some c |}.

(** ** value_serialize *)

Section Serialize.

(** [simplebuffer_add_cr] appends the end-of-line string of
    simplebuffer.c, a file apart from ini_valueobj.c: the string is a
    parameter here. *)
Variable ENDLNSTR : bytes.

Definition simplebuffer_add_cr (sb : simplebuffer) : simplebuffer := sb ++ ENDLNSTR.

(** [for (i = 0; i < num; i++)] over the comment; [len] is handed on as
    the C variable is shared with the loop over the value. *)
Fixpoint comment_loop (n : nat) (c : ini_comment) (i : nat) (len : Z) (sb : simplebuffer)
  : simplebuffer * Z :=
  match n with
  | O => (sb, len)
  | S n' =>
      let (commentline, len') := ini_comment_get_line c i in
      comment_loop n' c (S i) len'
                   (simplebuffer_add_cr (simplebuffer_add_raw sb commentline len'))
  end.

(** The [for (;;)] over the folded lines. *)
Fixpoint lines_loop (fuel : nat) (raw_lines : ref_array bytes) (raw_lengths : ref_array Z)
         (i : nat) (len : Z) (sb : simplebuffer) : option simplebuffer :=
  match fuel with
  | O => None
  | S fuel' =>
      match ref_array_get raw_lines i with
      | Some part =>
          let len' := match ref_array_get raw_lengths i with
                      | Some l => l
                      | None => len
                      end in
          lines_loop fuel' raw_lines raw_lengths (S i) len'
                     (simplebuffer_add_cr (simplebuffer_add_raw sb part len'))
      | None => Some sb
      end
  end.

Definition value_serialize (vo : value_obj) (key : bytes) : option simplebuffer :=
  let new_sbobj := simplebuffer_alloc in
  let (new_sbobj, len) :=
    match ic vo with
    | Some c => comment_loop (ini_comment_get_numlines c) c 0%nat 0 new_sbobj
    | None => (new_sbobj, 0)
    end in
  let new_sbobj := simplebuffer_add_raw new_sbobj key (keylen vo) in
  let new_sbobj := simplebuffer_add_raw new_sbobj INI_EQUAL_SIGN 3 in
  lines_loop (S (length (raw_lines vo))) (raw_lines vo) (raw_lengths vo) 0%nat len new_sbobj.

End Serialize.

(** ** Notions used by the statements *)

Definition str (s : string) : bytes := list_ascii_of_string s.

Definition LF : ascii := "010"%char.


(** The fragments an object stores: line [i] cut to its recorded length. *)
Definition stored_fragments (ls : ref_array bytes) (ns : ref_array Z) : list bytes :=
  map (fun p => read_bytes (fst p) (snd p)) (combine ls ns).

(** Every line followed by the terminator [cr]. *)
Definition with_terminators (cr : bytes) (l : list bytes) : bytes :=
  concat (map (fun x => x ++ cr) l).

Definition comment_lines (c : option ini_comment) : list bytes :=
  match c with
  | Some l => l
  | None => []
  end.

(** The buffer the specification describes for Serialize, word for word:
    comment lines, the key bytes, the separator, the fragments. *)
Definition serialization_as_specified (cr : bytes) (vo : value_obj) (key : bytes) : bytes :=
  with_terminators cr (comment_lines (ic vo)) ++ key ++ INI_EQUAL_SIGN ++
  with_terminators cr (stored_fragments (raw_lines vo) (raw_lengths vo)).

(** The width the specification gives to the first physical line. *)
Definition first_line_budget (key_len boundary : Z) : Z :=
  Z.max (boundary - key_len - INI_FOLDING_OVERHEAD) 0.

(** Lengths of the maximal runs of non-blank bytes of [s], in order;
    [run] is the length of the run being read. *)
Fixpoint token_lengths_from (run : Z) (s : bytes) : list Z :=
  match s with
  | [] => if run =? 0 then [] else [run]
  | c :: s' =>
      if is_blank c
      then (if run =? 0 then token_lengths_from 0 s' else run :: token_lengths_from 0 s')
      else token_lengths_from (run + 1) s'
  end.

Definition token_lengths (s : bytes) : list Z := token_lengths_from 0 s.

(** No token of [s] is wider than the first-line or the later-line budget. *)
Definition tokens_within_budgets (s : bytes) (key_len boundary : Z) : Prop :=
  Forall (fun n => n <= first_line_budget key_len boundary /\ n <= boundary) (token_lengths s).

(** [f] holds no space and no tab. *)
Definition blank_free (f : bytes) : bool := forallb (fun c => negb (is_blank c)) f.

(** [f] is empty or begins with a space or a tab. *)
Definition starts_blank (f : bytes) : Prop :=
  match f with
  | [] => True
  | c :: _ => is_blank c = true
  end.

(** Fragment [f], written on physical line [i], stays within [boundary]:
    the first line also carries the key and the separator. *)
Definition fits_line (key_len boundary : Z) (i : nat) (f : bytes) : Prop :=
  match i with
  | O => key_len + INI_FOLDING_OVERHEAD + Z.of_nat (length f) <= boundary
  | S _ => Z.of_nat (length f) <= boundary
  end.

Definition line_budget (key_len boundary : Z) (i : nat) : Z :=
  match i with
  | O => first_line_budget key_len boundary
  | S _ => boundary
  end.

(** The exception as the specification words it: the fragment is one
    blank-free token wider than the budget of its line. *)
Definition wide_token (key_len boundary : Z) (i : nat) (f : bytes) : Prop :=
  blank_free f = true /\ line_budget key_len boundary i < Z.of_nat (length f).

Definition fragments_fit_as_stated (key_len boundary : Z) (ls : list bytes) : Prop :=
  forall i f, nth_error ls i = Some f ->
              fits_line key_len boundary i f \/ wide_token key_len boundary i f.

(** The exception as the code has it: on the first line the fragment is
    one blank-free token; on a later line it is one byte, the blank at
    which the line was broken, followed by one blank-free token. *)
Definition whole_token (i : nat) (f : bytes) : Prop :=
  match i with
  | O => blank_free f = true
  | S _ => blank_free (tl f) = true
  end.

(** ** Notions used by the proofs about [value_fold] *)

(** No blank at the positions [a <= j < b] of the buffer. *)
Definition no_blank (buf : bytes) (a b : Z) : Prop :=
  forall j, a <= j < b -> is_blank (buf_at buf j) = false.

(** The bytes [start, start + n) of the buffer, as [save_portion] copies
    them. *)
Definition portion (buf : bytes) (start n : Z) : bytes :=
  read_bytes (skipn (Z.to_nat start) buf) n.

(** What the inner loop leaves behind, for a pass that starts at [start]
    with the preferred folding place [best]: either it broke at a blank
    (or the end) [np] beyond [best], to cut [fl > 0] bytes, which are
    one token that runs up to [np] or end at a blank not beyond [best];
    or it met the end of the buffer at or before [best]. *)
Definition scan_post (buf : bytes) (start best : Z) (r : scan_exit) : Prop :=
  let len := Z.of_nat (length buf) in
  match r with
  | Scan_break np fl d =>
      best < np <= len /\ d = (np =? len) /\
      (np < len -> is_blank (buf_at buf np) = true) /\
      0 < fl /\ start + fl <= np /\
      no_blank buf (start + fl + 1) np /\
      ((start + fl = np /\ no_blank buf (start + 1) np) \/
       (start + fl <= best /\ is_blank (buf_at buf (start + fl)) = true))
  | Scan_end np _ d => d = true /\ np = len /\ len <= best
  end.

(** A fragment is in order when it fits its line or is one whole token. *)
Definition frag_ok (key_len bound : Z) (i : nat) (f : bytes) : Prop :=
  fits_line key_len bound i f \/ whole_token i f.

Definition lines_ok (key_len bound : Z) (ls : list bytes) : Prop :=
  (forall i f, nth_error ls i = Some f -> frag_ok key_len bound i f) /\
  (forall i f, nth_error ls (S i) = Some f -> starts_blank f).

(** The invariant of the outer loop of [value_fold], between two passes. *)
Record fold_inv (buf : bytes) (key_len bound : Z) (v : fold_vars) : Prop := {
  inv_done : done v = false;
  inv_range : 0 <= start_place v <= resume_place v /\
              resume_place v <= Z.of_nat (length buf);
  inv_token : no_blank buf (start_place v + 1) (resume_place v);
  inv_idx : idx v = Z.of_nat (length (lines v));
  inv_start : (lines v = [] /\ start_place v = 0) \/
              (lines v <> [] /\ Z.of_nat (length (lines v)) <= start_place v /\
               is_blank (buf_at buf (start_place v)) = true);
  inv_concat : concat (lines v) = firstn (Z.to_nat (start_place v)) buf;
  inv_lengths : lengths v = map (fun f => Z.of_nat (length f)) (lines v);
  inv_lines : lines_ok key_len bound (lines v)
}.

(** What holds when the outer loop is left. *)
Record fold_final (buf : bytes) (key_len bound : Z) (v : fold_vars) : Prop := {
  fin_done : done v = true;
  fin_concat : concat (lines v) = buf;
  fin_lengths : lengths v = map (fun f => Z.of_nat (length f)) (lines v);
  fin_lines : lines_ok key_len bound (lines v)
}.

(** ** Notions used by the further properties of [value_fold] *)

(** A line stored after the first against the portion [p] of the value it
    was copied from: the portion itself when it is empty or begins with
    a blank, the portion behind one space otherwise. *)
Definition folded_line (l p : bytes) : Prop :=
  (starts_blank p /\ l = p) \/ (~ starts_blank p /\ l = SP :: p).

(** The stored lines against the portions of the value: the first line
    is its portion. *)
Definition folded_lines (ls ps : list bytes) : Prop :=
  match ls, ps with
  | [], [] => True
  | l :: ls', p :: ps' => l = p /\ Forall2 folded_line ls' ps'
  | _, _ => False
  end.

(** What every exit of the inner loop satisfies, whatever [best_place]. *)
Definition scan_sound (buf : bytes) (start : Z) (r : scan_exit) : Prop :=
  let len := Z.of_nat (length buf) in
  match r with
  | Scan_break np fl d => 0 <= fl /\ start + fl <= np <= len /\ (d = true -> np = len)
  | Scan_end np _ d => d = true /\ np = len
  end.

(** What every state of the outer loop satisfies: the lines are portions
    of the value in order, up to [start_place], or up to the end once
    [done] is set and the last portion is saved. *)
Record fold_sound (buf : bytes) (v : fold_vars) : Prop := {
  snd_range : 0 <= start_place v <= resume_place v /\
              resume_place v <= Z.of_nat (length buf);
  snd_lengths : lengths v = map (fun f => Z.of_nat (length f)) (lines v);
  snd_pieces : exists pieces,
      concat pieces
      = firstn (Z.to_nat (if done v then Z.of_nat (length buf) else start_place v)) buf /\
      folded_lines (lines v) pieces;
  snd_done : done v = true -> lines v <> []
}.

(** The invariant of the outer loop from the second pass on, for a value
    that does not begin with a blank: [pre] is what the lines hold in
    front of the bytes of the value. *)
Record fold_run (buf pre : bytes) (v : fold_vars) : Prop := {
  run_done : done v = false;
  run_range : 0 <= start_place v <= resume_place v /\
              resume_place v <= Z.of_nat (length buf);
  run_token : no_blank buf (start_place v + 1) (resume_place v);
  run_idx : 0 < idx v <= start_place v + 1;
  run_lines : lines v <> [];
  run_start : is_blank (buf_at buf (start_place v)) = true;
  run_concat : concat (lines v) = pre ++ firstn (Z.to_nat (start_place v)) buf;
  run_lengths : lengths v = map (fun f => Z.of_nat (length f)) (lines v)
}.

Record fold_end (buf pre : bytes) (v : fold_vars) : Prop := {
  end_done : done v = true;
  end_concat : concat (lines v) = pre ++ buf;
  end_lengths : lengths v = map (fun f => Z.of_nat (length f)) (lines v)
}.

(** The arrays a reader builds for a value: [value_create_arrays], then
    [value_add_to_arrays] for every line read, in order. *)
Definition add_lines (items : list (bytes * Z)) (arrays : ref_array bytes * ref_array Z)
  : ref_array bytes * ref_array Z :=
  fold_left (fun a it => value_add_to_arrays (fst it) (snd it) (fst a) (snd a)) items arrays.

(** ** Notions used to say that the lines are filled *)

(** The bytes of [f] in front of its first blank. *)
Fixpoint token_prefix (f : bytes) : bytes :=
  match f with
  | [] => []
  | c :: t => if is_blank c then [] else c :: token_prefix t
  end.

(** The first word of a line with the byte in front of it: the first
    byte of [f] and the bytes that follow it up to the next blank. *)
Definition leading_word (f : bytes) : bytes :=
  match f with
  | [] => []
  | c :: t => c :: token_prefix t
  end.

(** Every line that has a successor is not empty and could not hold, in
    its budget, the first word of the next line as well. *)
Definition filled (key_len boundary : Z) (ls : list bytes) : Prop :=
  forall i f g,
    nth_error ls i = Some f -> nth_error ls (S i) = Some g ->
    f <> [] /\
    line_budget key_len boundary i
    < Z.of_nat (length f) + Z.of_nat (length (leading_word g)).

(** The invariant of the outer loop with what is known of the last line
    saved: it and the bytes up to [resume_place] exceed its budget. *)
Record fold_filling (buf : bytes) (key_len bound : Z) (v : fold_vars) : Prop := {
  fill_inv : fold_inv buf key_len bound v;
  fill_lines : filled key_len bound (lines v);
  fill_pending : forall ls' f,
      lines v = ls' ++ [f] ->
      f <> [] /\
      line_budget key_len bound (length ls')
      < Z.of_nat (length f) + (resume_place v - start_place v)
}.

(** * Properties *)

(** ** Proof steps used throughout *)

(** [x =? y] is [false], by arithmetic. *)
Tactic Notation "eqb_false" constr(x) constr(y) :=
  replace (x =? y) with false by (symmetry; apply Z.eqb_neq; simpl length; lia).

(** [x >? y] is [false], by arithmetic. *)
Tactic Notation "gtb_false" constr(x) constr(y) :=
  replace (x >? y) with false by (symmetry; rewrite Z.gtb_ltb; apply Z.ltb_ge; lia).

(** Move the element met by a loop over [pre ++ x :: rest] to the lines
    already seen. *)
Ltac snoc_middle pre x rest :=
  replace (pre ++ x :: rest) with ((pre ++ [x]) ++ rest)
    by (rewrite <- app_assoc; reflexivity).

(** ** Fuel *)

Lemma fold_loop_more_fuel (buf : bytes) (len key_len fold_bound : Z) :
  forall fuel extra v r,
    fold_loop fuel buf len key_len fold_bound v = Some r ->
    fold_loop (fuel + extra) buf len key_len fold_bound v = Some r.
Proof.
  induction fuel as [|fuel IH]; intros extra v r H.
  - simpl in H. destruct (done v) eqn:D; [|discriminate].
    destruct extra; simpl; rewrite D; exact H.
  - simpl in *. destruct (done v); [exact H|]. apply IH; exact H.
Qed.

Lemma value_fold_more_fuel (fuel extra : nat) (buf : bytes) (key_len fold_bound : Z)
      (ls : ref_array bytes) (ns : ref_array Z) (r : ref_array bytes * ref_array Z) :
  value_fold fuel buf key_len fold_bound ls ns = Some r ->
  value_fold (fuel + extra) buf key_len fold_bound ls ns = Some r.
Proof.
  unfold value_fold. intros H.
  destruct (fold_loop fuel _ _ _ _ _) as [v|] eqn:E; [|discriminate].
  rewrite (fold_loop_more_fuel _ _ _ _ _ extra _ _ E). exact H.
Qed.

Lemma value_fold_deterministic (fuel fuel' : nat) (buf : bytes) (key_len fold_bound : Z)
      (ls : ref_array bytes) (ns : ref_array Z) (r r' : ref_array bytes * ref_array Z) :
  value_fold fuel buf key_len fold_bound ls ns = Some r ->
  value_fold fuel' buf key_len fold_bound ls ns = Some r' ->
  r = r'.
Proof.
  intros H H'.
  apply (value_fold_more_fuel _ fuel') in H.
  apply (value_fold_more_fuel _ fuel) in H'.
  rewrite Nat.add_comm in H'. congruence.
Qed.

(** [value_fold] starts by resetting the arrays it is given. *)
Lemma value_fold_resets (fuel : nat) (buf : bytes) (key_len fold_bound : Z)
      (ls : ref_array bytes) (ns : ref_array Z) :
  value_fold fuel buf key_len fold_bound ls ns = value_fold fuel buf key_len fold_bound [] [].
Proof. reflexivity. Qed.

(** ** A value that starts with a blank *)

Lemma wrap_0 : wrap 0 = 0.
Proof. reflexivity. Qed.

Lemma fold_body_leading_blank (c : ascii) (rest : bytes) (key_len fold_bound : Z)
      (n : Z) (ls : ref_array bytes) (ns : ref_array Z) :
  is_blank c = true ->
  fold_body (c :: rest) (Z.of_nat (length (c :: rest))) key_len fold_bound
            {| start_place := 0; resume_place := 0; idx := n; done := false;
               lines := ls; lengths := ns |}
  = {| start_place := 0; resume_place := 0; idx := wrap (n + 1); done := false;
       lines := ls ++ [[]]; lengths := ns ++ [0] |}.
Proof.
  intros Hc. unfold fold_body. cbn [start_place resume_place idx done lines lengths].
  replace (Z.to_nat (Z.of_nat (length (c :: rest)) + 1 - 0))
    with (S (length (c :: rest))) by lia.
  cbn [scan].
  replace (0 =? Z.of_nat (length (c :: rest))) with false
    by (symmetry; apply Z.eqb_neq; simpl length; lia).
  change (buf_at (c :: rest) 0) with c. rewrite Hc.
  cbn [orb]. rewrite orb_true_r.
  change (0 =? 0) with true. cbn [negb]. rewrite andb_false_r.
  change (0 - 0) with 0. rewrite wrap_0.
  unfold save_portion. change (0 =? 0) with true. cbn [negb].
  rewrite andb_false_r. cbn [andb]. change (0 =? 0) with true.
  reflexivity.
Qed.

Lemma fold_loop_leading_blank (c : ascii) (rest : bytes) (key_len fold_bound : Z) :
  is_blank c = true ->
  forall fuel n ls ns,
    fold_loop fuel (c :: rest) (Z.of_nat (length (c :: rest))) key_len fold_bound
              {| start_place := 0; resume_place := 0; idx := n; done := false;
                 lines := ls; lengths := ns |} = None.
Proof.
  intros Hc. induction fuel as [|fuel IH]; intros n ls ns.
  - reflexivity.
  - cbn [fold_loop done]. rewrite fold_body_leading_blank by exact Hc. apply IH.
Qed.

Lemma value_fold_leading_blank (c : ascii) (rest : bytes) (key_len fold_bound : Z)
      (ls : ref_array bytes) (ns : ref_array Z) (fuel : nat) :
  is_blank c = true ->
  value_fold fuel (c :: rest) key_len fold_bound ls ns = None.
Proof.
  intros Hc. unfold value_fold, simplebuffer_get_len.
  rewrite fold_loop_leading_blank by exact Hc. reflexivity.
Qed.

Lemma value_fold_empty (fuel : nat) (key_len fold_bound : Z)
      (ls : ref_array bytes) (ns : ref_array Z) :
  value_fold (1 + fuel) [] key_len fold_bound ls ns = Some ([[]; []], [0; 0]).
Proof.
  apply value_fold_more_fuel.
  unfold value_fold. cbn [fold_loop done simplebuffer_get_len length Z.of_nat].
  unfold fold_body. cbn [start_place resume_place idx done lines lengths].
  change (Z.to_nat (0 + 1 - 0)) with 1%nat. cbn [scan].
  change (0 =? 0) with true. cbv iota. rewrite orb_true_r.
  cbn [negb]. rewrite andb_false_r.
  reflexivity.
Qed.

(** ** Loops over the stored lines *)

Lemma read_bytes_all (l : bytes) : read_bytes l (Z.of_nat (length l)) = l.
Proof. unfold read_bytes. rewrite Nat2Z.id. apply firstn_all. Qed.

Lemma nth_error_middle {A} (pre : list A) (x : A) (rest : list A) :
  nth_error (pre ++ x :: rest) (length pre) = Some x.
Proof. rewrite nth_error_app2, Nat.sub_diag by lia. reflexivity. Qed.

Lemma nth_error_end {A} (pre : list A) : nth_error pre (length pre) = None.
Proof. apply nth_error_None. lia. Qed.

Lemma unfold_loop_step (fuel : nat) (ls : ref_array bytes) (ns : ref_array Z)
      (i : nat) (len : Z) (sb : simplebuffer) :
  unfold_loop (S fuel) ls ns i len sb
  = match ref_array_get ls i with
    | Some part =>
        let len' := match ref_array_get ns i with Some l => l | None => len end in
        unfold_loop fuel ls ns (S i) len' (simplebuffer_add_raw sb part len')
    | None => Some sb
    end.
Proof. reflexivity. Qed.

Lemma unfold_loop_parallel :
  forall rest_l rest_n pre_l pre_n len sb,
    length pre_n = length pre_l ->
    length rest_n = length rest_l ->
    unfold_loop (S (length rest_l)) (pre_l ++ rest_l) (pre_n ++ rest_n) (length pre_l) len sb
    = Some (sb ++ concat (stored_fragments rest_l rest_n)).
Proof.
  induction rest_l as [|l rest_l IH]; intros rest_n pre_l pre_n len sb Hp Hr.
  - cbn [unfold_loop length]. unfold ref_array_get.
    rewrite app_nil_r, nth_error_end. cbn. now rewrite app_nil_r.
  - destruct rest_n as [|n rest_n]; [discriminate|].
    cbn [length]. rewrite unfold_loop_step. unfold ref_array_get.
    rewrite nth_error_middle, <- Hp, nth_error_middle. cbv zeta.
    snoc_middle pre_l l rest_l.
    snoc_middle pre_n n rest_n.
    replace (S (length pre_n)) with (length (pre_l ++ [l]))
      by (rewrite length_app; simpl; lia).
    rewrite IH.
    + unfold simplebuffer_add_raw, stored_fragments. cbn. now rewrite <- app_assoc.
    + rewrite !length_app. simpl. lia.
    + simpl in Hr. lia.
Qed.

Lemma value_unfold_parallel (ls : ref_array bytes) (ns : ref_array Z) :
  length ns = length ls ->
  value_unfold ls ns = Some (concat (stored_fragments ls ns)).
Proof.
  intros H. unfold value_unfold.
  apply (unfold_loop_parallel ls ns [] [] 0 simplebuffer_alloc eq_refl H).
Qed.

Section SerializeFacts.

Variable cr : bytes.

Lemma lines_loop_step (fuel : nat) (ls : ref_array bytes) (ns : ref_array Z)
      (i : nat) (len : Z) (sb : simplebuffer) :
  lines_loop cr (S fuel) ls ns i len sb
  = match ref_array_get ls i with
    | Some part =>
        let len' := match ref_array_get ns i with Some l => l | None => len end in
        lines_loop cr fuel ls ns (S i) len'
                   (simplebuffer_add_cr cr (simplebuffer_add_raw sb part len'))
    | None => Some sb
    end.
Proof. reflexivity. Qed.

Lemma comment_loop_text :
  forall rest pre len sb,
    fst (comment_loop cr (length rest) (pre ++ rest) (length pre) len sb)
    = sb ++ with_terminators cr rest.
Proof.
  induction rest as [|l rest IH]; intros pre len sb.
  - cbn. now rewrite app_nil_r.
  - cbn [length comment_loop]. unfold ini_comment_get_line.
    rewrite app_nth2, Nat.sub_diag by lia. cbn [nth].
    snoc_middle pre l rest.
    replace (S (length pre)) with (length (pre ++ [l]))
      by (rewrite length_app; simpl; lia).
    rewrite IH. unfold simplebuffer_add_cr, simplebuffer_add_raw, with_terminators.
    rewrite read_bytes_all. cbn. now rewrite <- !app_assoc.
Qed.

(** What the loop over the lines appends does not depend on the buffer
    it appends to, and the loop always ends. *)
Lemma lines_loop_appends :
  forall rest pre ns len,
  exists out, forall sb,
      lines_loop cr (S (length rest)) (pre ++ rest) ns (length pre) len sb = Some (sb ++ out).
Proof.
  induction rest as [|l rest IH]; intros pre ns len.
  - exists []. intros sb. cbn [lines_loop length]. unfold ref_array_get.
    rewrite app_nil_r, nth_error_end. now rewrite app_nil_r.
  - set (len' := match ref_array_get ns (length pre) with Some n => n | None => len end).
    destruct (IH (pre ++ [l]) ns len') as [out Hout].
    exists (read_bytes l len' ++ cr ++ out). intros sb.
    cbn [length]. rewrite lines_loop_step. unfold ref_array_get at 1.
    rewrite nth_error_middle. cbv zeta. fold len'.
    snoc_middle pre l rest.
    replace (S (length pre)) with (length (pre ++ [l]))
      by (rewrite length_app; simpl; lia).
    rewrite Hout. unfold simplebuffer_add_cr, simplebuffer_add_raw.
    now rewrite <- !app_assoc.
Qed.

Lemma lines_loop_parallel :
  forall rest_l rest_n pre_l pre_n len sb,
    length pre_n = length pre_l ->
    length rest_n = length rest_l ->
    lines_loop cr (S (length rest_l)) (pre_l ++ rest_l) (pre_n ++ rest_n) (length pre_l) len sb
    = Some (sb ++ with_terminators cr (stored_fragments rest_l rest_n)).
Proof.
  induction rest_l as [|l rest_l IH]; intros rest_n pre_l pre_n len sb Hp Hr.
  - cbn [lines_loop length]. unfold ref_array_get.
    rewrite app_nil_r, nth_error_end. cbn. now rewrite app_nil_r.
  - destruct rest_n as [|n rest_n]; [discriminate|].
    cbn [length]. rewrite lines_loop_step. unfold ref_array_get.
    rewrite nth_error_middle, <- Hp, nth_error_middle. cbv zeta.
    snoc_middle pre_l l rest_l.
    snoc_middle pre_n n rest_n.
    replace (S (length pre_n)) with (length (pre_l ++ [l]))
      by (rewrite length_app; simpl; lia).
    rewrite IH.
    + unfold simplebuffer_add_cr, simplebuffer_add_raw, with_terminators, stored_fragments.
      cbn. now rewrite <- !app_assoc.
    + rewrite !length_app. simpl. lia.
    + simpl in Hr. lia.
Qed.

Lemma value_serialize_prefix (vo : value_obj) (key : bytes) :
  exists after,
    value_serialize cr vo key
    = Some (with_terminators cr (comment_lines (ic vo)) ++
            read_bytes key (keylen vo) ++ INI_EQUAL_SIGN ++ after) /\
    (length (raw_lengths vo) = length (raw_lines vo) ->
     after = with_terminators cr (stored_fragments (raw_lines vo) (raw_lengths vo))).
Proof.
  unfold value_serialize.
  set (cl := match ic vo with
             | Some c => comment_loop cr (ini_comment_get_numlines c) c 0%nat 0 simplebuffer_alloc
             | None => (simplebuffer_alloc, 0)
             end).
  assert (Hcl : fst cl = with_terminators cr (comment_lines (ic vo))).
  { subst cl. destruct (ic vo) as [c|]; [|reflexivity].
    apply (comment_loop_text c [] 0 simplebuffer_alloc). }
  destruct cl as [sb len]. cbn [fst] in Hcl. subst sb.
  destruct (lines_loop_appends (raw_lines vo) [] (raw_lengths vo) len) as [out Hout].
  exists out. cbn [app length] in Hout. split.
  - rewrite Hout. unfold simplebuffer_add_raw.
    change (read_bytes INI_EQUAL_SIGN 3) with INI_EQUAL_SIGN.
    now rewrite <- !app_assoc.
  - intros Hpar.
    pose proof (lines_loop_parallel (raw_lines vo) (raw_lengths vo) [] [] len [] eq_refl Hpar) as Hp.
    cbn [app length] in Hp. rewrite Hout in Hp. cbn [app] in Hp. congruence.
Qed.

End SerializeFacts.

(** ** Serialization *)

(** C3 (as stated, refuted): the key bytes of the buffer are not the key
    handed in but its first [keylen] bytes.  An object built for a
    one-byte key and serialized under the key "foo" gives "f = x". *)
Lemma serialize_writes_keylen_bytes_not_key :
  exists vo,
    value_create_new 1 (str "x") 1 0 1 80 None = Some vo /\
    value_serialize [LF] vo (str "foo") = Some (str "f = x" ++ [LF]) /\
    value_serialize [LF] vo (str "foo")
    <> Some (serialization_as_specified [LF] vo (str "foo")).
Proof.
  eexists. split; [reflexivity|]. split; [reflexivity|].
  vm_compute. discriminate.
Qed.

(** C3 (amended): for an object whose length array is parallel to its
    line array and a key of at least [keylen] bytes, the serialized buffer
    is each comment line with a terminator, then the first [keylen] bytes
    of the key, then " = ", then each stored fragment with a terminator;
    when the key has exactly [keylen] bytes this is the buffer the
    specification describes. *)
Theorem value_serialize_layout (cr : bytes) (vo : value_obj) (key : bytes) :
  length (raw_lengths vo) = length (raw_lines vo) ->
  0 <= keylen vo <= Z.of_nat (length key) ->
  value_serialize cr vo key
  = Some (with_terminators cr (comment_lines (ic vo)) ++
          read_bytes key (keylen vo) ++ INI_EQUAL_SIGN ++
          with_terminators cr (stored_fragments (raw_lines vo) (raw_lengths vo))) /\
  (keylen vo = Z.of_nat (length key) ->
   value_serialize cr vo key = Some (serialization_as_specified cr vo key)).
Proof.
  intros Hpar Hkey.
  destruct (value_serialize_prefix cr vo key) as [after [Hs Hafter]].
  rewrite (Hafter Hpar) in Hs. split; [exact Hs|].
  intros Hk. rewrite Hs, Hk, read_bytes_all. reflexivity.
Qed.

(** Scenario C: a two-line comment, the fragment "x", the key "key". *)
Lemma value_serialize_layout_witness :
  let vo := {| raw_lines := [str "x"]; raw_lengths := [1]; unfolded := str "x";
               origin := 0; line := 7; keylen := 3; boundary := 80;
               ic := Some [str "# one"; str "# two"] |} in
  value_serialize [LF] vo (str "key")
  = Some (str "# one" ++ [LF] ++ str "# two" ++ [LF] ++ str "key = x" ++ [LF]).
Proof.
  intros vo.
  refine (eq_trans (proj1 (value_serialize_layout [LF] vo (str "key") _ _)) _).
  - reflexivity.
  - simpl. lia.
  - reflexivity.
Defined.

(** C10: serialization writes [keylen] bytes of the key argument, whatever
    the key's own length: for a key of at least [keylen] bytes the buffer
    holds, between the comment and the separator, exactly the first
    [keylen] bytes of the key, and what follows them in the key is not
    written. *)
Theorem value_serialize_key_bytes (cr : bytes) (vo : value_obj) (key : bytes) :
  0 <= keylen vo <= Z.of_nat (length key) ->
  exists after,
    value_serialize cr vo key
    = Some (with_terminators cr (comment_lines (ic vo)) ++
            read_bytes key (keylen vo) ++ INI_EQUAL_SIGN ++ after) /\
    Z.of_nat (length (read_bytes key (keylen vo))) = keylen vo /\
    forall extra,
      value_serialize cr vo (read_bytes key (keylen vo) ++ extra)
      = value_serialize cr vo key.
Proof.
  intros Hkey.
  destruct (value_serialize_prefix cr vo key) as [after [Hs _]].
  exists after. split; [exact Hs|].
  assert (Hlen : length (read_bytes key (keylen vo)) = Z.to_nat (keylen vo)).
  { unfold read_bytes. rewrite length_firstn. lia. }
  split; [lia|].
  intros extra. unfold value_serialize.
  destruct (match ic vo with
            | Some c => comment_loop cr (ini_comment_get_numlines c) c 0%nat 0 simplebuffer_alloc
            | None => (simplebuffer_alloc, 0)
            end) as [sb len].
  unfold simplebuffer_add_raw at 2 4.
  replace (read_bytes (read_bytes key (keylen vo) ++ extra) (keylen vo))
    with (read_bytes key (keylen vo)); [reflexivity|].
  unfold read_bytes at 2. rewrite firstn_app, Hlen, Nat.sub_diag.
  cbn [firstn]. rewrite app_nil_r.
  unfold read_bytes. rewrite firstn_firstn, Nat.min_id. reflexivity.
Qed.

Lemma value_serialize_key_bytes_witness :
  let vo := {| raw_lines := [str "x"]; raw_lengths := [1]; unfolded := str "x";
               origin := 0; line := 0; keylen := 3; boundary := 80; ic := None |} in
  0 <= keylen vo <= Z.of_nat (length (str "foobar")) /\
  exists after,
    value_serialize [LF] vo (str "foobar")
    = Some (with_terminators [LF] (comment_lines (ic vo)) ++
            read_bytes (str "foobar") (keylen vo) ++ INI_EQUAL_SIGN ++ after) /\
    Z.of_nat (length (read_bytes (str "foobar") (keylen vo))) = keylen vo /\
    forall extra,
      value_serialize [LF] vo (read_bytes (str "foobar") (keylen vo) ++ extra)
      = value_serialize [LF] vo (str "foobar").
Proof.
  intros vo. split.
  - simpl. lia.
  - apply (value_serialize_key_bytes [LF] vo (str "foobar")). simpl. lia.
Defined.

(** ** Scenarios *)

(** C4, scenario A: "aaaa bbbb cccc" under a 3-byte key and boundary 10
    folds into "aaaa" and " bbbb cccc"; these unfold to the value; with
    the key "foo" and no comment the object serializes as "foo = aaaa",
    a terminator, " bbbb cccc", a terminator. *)
Theorem scenario_basic_fold (cr : bytes) (fuel : nat) :
  value_fold (2 + fuel) (str "aaaa bbbb cccc") 3 10 [] []
  = Some ([str "aaaa"; str " bbbb cccc"], [4; 10]) /\
  value_unfold [str "aaaa"; str " bbbb cccc"] [4; 10] = Some (str "aaaa bbbb cccc") /\
  exists vo,
    value_create_new (2 + fuel) (str "aaaa bbbb cccc") 14 0 3 10 None = Some vo /\
    raw_lines vo = [str "aaaa"; str " bbbb cccc"] /\
    value_get_concatenated vo = str "aaaa bbbb cccc" /\
    value_serialize cr vo (str "foo")
    = Some (str "foo = aaaa" ++ cr ++ str " bbbb cccc" ++ cr).
Proof.
  assert (F : value_fold (2 + fuel) (str "aaaa bbbb cccc") 3 10 [] []
              = Some ([str "aaaa"; str " bbbb cccc"], [4; 10])).
  { apply value_fold_more_fuel. reflexivity. }
  split; [exact F|]. split; [reflexivity|].
  unfold value_create_new.
  change (simplebuffer_add_raw simplebuffer_alloc (str "aaaa bbbb cccc") 14)
    with (str "aaaa bbbb cccc").
  cbv beta iota delta [value_create_arrays]. rewrite F.
  eexists. split; [reflexivity|]. split; [reflexivity|]. split; [reflexivity|].
  match goal with
  | |- value_serialize cr ?vo ?key = _ =>
      destruct (value_serialize_prefix cr vo key) as [after [Hs Ha]];
      rewrite Hs, (Ha eq_refl)
  end.
  unfold with_terminators, stored_fragments. cbn.
  rewrite app_nil_r. reflexivity.
Qed.

(** C5 (the code's behaviour): the empty value folds into two empty
    fragments, for every key length and boundary: the pass that meets
    the end of the buffer saves a portion on leaving the [for] and the
    last portion once more. *)
Theorem fold_empty_value (fuel : nat) (key_len fold_bound : Z)
        (ls : ref_array bytes) (ns : ref_array Z) :
  value_fold (1 + fuel) [] key_len fold_bound ls ns = Some ([[]; []], [0; 0]).
Proof. apply value_fold_empty. Qed.

(** C8: a boundary of 0 folds as a boundary of 1. *)
Theorem fold_boundary_zero_as_one (fuel : nat) (unfolded : simplebuffer) (key_len : Z)
        (ls : ref_array bytes) (ns : ref_array Z) :
  value_fold fuel unfolded key_len 0 ls ns = value_fold fuel unfolded key_len 1 ls ns.
Proof. reflexivity. Qed.

(** ** Mutators *)

(** C6: after a successful [value_update] the stored lines and lengths are
    those of a fold of the new string, at the object's key length and the
    new boundary, into fresh arrays. *)
Theorem value_update_refolds (fuel : nat) (vo vo' : value_obj) (value : bytes)
        (length origin boundary : Z) :
  value_update fuel vo value length origin boundary = Some vo' ->
  unfolded vo' = read_bytes value length /\
  value_fold fuel (read_bytes value length) (keylen vo) boundary [] []
  = Some (raw_lines vo', raw_lengths vo') /\
  forall fuel' r,
    value_fold fuel' (read_bytes value length) (keylen vo) boundary [] [] = Some r ->
    r = (raw_lines vo', raw_lengths vo').
Proof.
  unfold value_update. intros H.
  change (simplebuffer_add_raw simplebuffer_alloc value length)
    with (read_bytes value length) in H.
  rewrite value_fold_resets in H.
  destruct (value_fold fuel (read_bytes value length) (keylen vo) boundary [] [])
    as [[ls ns]|] eqn:E; [|discriminate].
  injection H as <-. cbn [unfolded raw_lines raw_lengths].
  split; [reflexivity|]. split; [reflexivity|].
  intros fuel' r Hr. exact (value_fold_deterministic _ _ _ _ _ _ _ _ _ Hr E).
Qed.

(** Scenario D: built with boundary 10, updated with a longer string and
    boundary 12. *)
Lemma value_update_refolds_witness :
  let vo := {| raw_lines := [str "aaaa"; str " bbbb cccc"]; raw_lengths := [4; 10];
               unfolded := str "aaaa bbbb cccc"; origin := 0; line := 0;
               keylen := 3; boundary := 10; ic := None |} in
  let vo' := {| raw_lines := [str "dddd"; str " eeee ffff"; str " gggg hh"];
                raw_lengths := [4; 10; 8];
                unfolded := str "dddd eeee ffff gggg hh"; origin := 1; line := 0;
                keylen := 3; boundary := 12; ic := None |} in
  value_update 3 vo (str "dddd eeee ffff gggg hh") 22 1 12 = Some vo' /\
  value_fold 3 (str "dddd eeee ffff gggg hh") 3 12 [] []
  = Some (raw_lines vo', raw_lengths vo').
Proof.
  intros vo vo'.
  assert (H : value_update 3 vo (str "dddd eeee ffff gggg hh") 22 1 12 = Some vo')
    by reflexivity.
  split; [exact H|].
  exact (proj1 (proj2 (value_update_refolds 3 vo vo' _ 22 1 12 H))).
Defined.

(** C7: a successful [value_set_keylen] stores the new key length and the
    fold of the unchanged buffer at that key length and the unchanged
    boundary; buffer, origin, line, boundary and comment stay as they
    were. *)
Theorem value_set_keylen_refolds (fuel : nat) (vo vo' : value_obj) (key_len : Z) :
  value_set_keylen fuel vo key_len = Some vo' ->
  keylen vo' = key_len /\
  value_fold fuel (unfolded vo) key_len (boundary vo) [] []
  = Some (raw_lines vo', raw_lengths vo') /\
  unfolded vo' = unfolded vo /\
  origin vo' = origin vo /\
  line vo' = line vo /\
  boundary vo' = boundary vo /\
  ic vo' = ic vo.
Proof.
  unfold value_set_keylen. intros H.
  rewrite value_fold_resets in H.
  destruct (value_fold fuel (unfolded vo) key_len (boundary vo) [] [])
    as [[ls ns]|] eqn:E; [|discriminate].
  injection H as <-. cbn. repeat split; reflexivity.
Qed.

Lemma value_set_keylen_refolds_witness :
  let vo := {| raw_lines := [str "aaaa"; str " bbbb cccc"]; raw_lengths := [4; 10];
               unfolded := str "aaaa bbbb cccc"; origin := 0; line := 5;
               keylen := 3; boundary := 10; ic := Some [str "# note"] |} in
  let vo' := {| raw_lines := [[]; str " aaaa bbbb"; str " cccc"]; raw_lengths := [0; 10; 5];
                unfolded := str "aaaa bbbb cccc"; origin := 0; line := 5;
                keylen := 7; boundary := 10; ic := Some [str "# note"] |} in
  value_set_keylen 3 vo 7 = Some vo' /\
  keylen vo' = 7 /\ unfolded vo' = unfolded vo.
Proof.
  intros vo vo'.
  assert (H : value_set_keylen 3 vo 7 = Some vo') by reflexivity.
  split; [exact H|].
  pose proof (value_set_keylen_refolds 3 vo vo' 7 H) as P.
  split; [exact (proj1 P)|exact (proj1 (proj2 (proj2 P)))].
Defined.

(** ** Folding a value that does not start with a blank *)

Lemma wrap_small (x : Z) : 0 <= x < 2 ^ 32 -> wrap x = x.
Proof. intros H. unfold wrap. apply Z.mod_small. exact H. Qed.

Lemma skipn_S_tl {A} (a : nat) : forall l : list A, skipn (S a) l = tl (skipn a l).
Proof.
  induction a as [|a IH]; intros l.
  - destruct l; reflexivity.
  - destruct l as [|x l]; [reflexivity|]. rewrite skipn_cons. rewrite IH. reflexivity.
Qed.

Lemma firstn_add_skipn {A} (a b : nat) (l : list A) :
  firstn (a + b) l = firstn a l ++ firstn b (skipn a l).
Proof.
  revert l. induction a as [|a IH]; intros l.
  - reflexivity.
  - destruct l as [|x l]; cbn [Nat.add firstn skipn app].
    + now rewrite firstn_nil.
    + now rewrite IH.
Qed.

Lemma tl_firstn_skipn {A} (a n : nat) (l : list A) :
  tl (firstn (S n) (skipn a l)) = firstn n (skipn (S a) l).
Proof.
  rewrite skipn_S_tl. destruct (skipn a l); [|reflexivity].
  cbn [firstn tl]. now rewrite firstn_nil.
Qed.

Lemma blank_free_segment (l : bytes) :
  forall n a,
    (forall j, (a <= j < a + n)%nat -> is_blank (nth j l NUL) = false) ->
    blank_free (firstn n (skipn a l)) = true.
Proof.
  induction n as [|n IH]; intros a H.
  - reflexivity.
  - destruct (skipn a l) as [|x r] eqn:E; [reflexivity|].
    assert (Hx : x = nth a l NUL).
    { rewrite <- (Nat.add_0_r a), <- nth_skipn, E. reflexivity. }
    assert (Hr : r = skipn (S a) l) by (rewrite skipn_S_tl, E; reflexivity).
    cbn [firstn blank_free forallb]. apply andb_true_iff. split.
    + rewrite Hx, H by lia. reflexivity.
    + rewrite Hr. apply IH. intros j Hj. apply H. lia.
Qed.

Section FoldFacts.

Variable buf : bytes.
Variables key_len bound : Z.

Local Abbreviation len := (Z.of_nat (length buf)).
Local Abbreviation no_blank := (no_blank buf).
Local Abbreviation portion := (portion buf).
Local Abbreviation scan_post := (scan_post buf).

Lemma portion_length (start n : Z) :
  0 <= start -> 0 <= n -> start + n <= len ->
  Z.of_nat (length (portion start n)) = n.
Proof.
  intros Hs Hn Hl. unfold portion, read_bytes.
  rewrite length_firstn, length_skipn. lia.
Qed.

Lemma portion_head (start n : Z) :
  0 <= start -> 0 < n -> start < len ->
  exists t, portion start n = buf_at buf start :: t.
Proof.
  intros Hs Hn Hl. unfold portion, read_bytes.
  destruct (skipn (Z.to_nat start) buf) as [|x r] eqn:E.
  - apply (f_equal (@length _)) in E. rewrite length_skipn in E.
    simpl in E. lia.
  - replace (Z.to_nat n) with (S (Z.to_nat (n - 1))) by lia.
    exists (firstn (Z.to_nat (n - 1)) r). cbn [firstn]. f_equal.
    unfold buf_at. rewrite <- (Nat.add_0_r (Z.to_nat start)), <- nth_skipn, E.
    reflexivity.
Qed.

Lemma portion_first_byte (start : Z) :
  0 <= start -> buf_at (skipn (Z.to_nat start) buf) 0 = buf_at buf start.
Proof.
  intros Hs. unfold buf_at. rewrite nth_skipn. f_equal. lia.
Qed.

Lemma portion_blank_free (start n : Z) :
  0 <= start -> 0 <= n -> no_blank start (start + n) ->
  blank_free (portion start n) = true.
Proof.
  intros Hs Hn H. unfold portion, read_bytes. apply blank_free_segment.
  intros j Hj. specialize (H (Z.of_nat j)). unfold buf_at in H.
  rewrite Nat2Z.id in H. apply H. lia.
Qed.

Lemma portion_tl_blank_free (start n : Z) :
  0 <= start -> 0 <= n -> no_blank (start + 1) (start + n) ->
  blank_free (tl (portion start n)) = true.
Proof.
  intros Hs Hn H. destruct (Z.eq_dec n 0) as [->|Hn0].
  - reflexivity.
  - unfold portion, read_bytes.
    replace (Z.to_nat n) with (S (Z.to_nat (n - 1))) by lia.
    rewrite tl_firstn_skipn.
    replace (S (Z.to_nat start)) with (Z.to_nat (start + 1)) by lia.
    apply (portion_blank_free (start + 1) (n - 1)); [lia|lia|].
    intros j Hj. apply H. lia.
Qed.

Lemma concat_portion (ls : list bytes) (start n : Z) :
  0 <= start -> 0 <= n ->
  concat ls = firstn (Z.to_nat start) buf ->
  concat (ls ++ [portion start n]) = firstn (Z.to_nat (start + n)) buf.
Proof.
  intros Hs Hn H. rewrite concat_app, H. cbn [concat]. rewrite app_nil_r.
  unfold portion, read_bytes. rewrite Z2Nat.inj_add by lia.
  symmetry. apply firstn_add_skipn.
Qed.

(** [save_portion] adds no space when the array is empty, the portion
    is empty or the portion begins with a blank. *)
Lemma save_portion_plain (ls : ref_array bytes) (ns : ref_array Z) (start n : Z) :
  0 <= start -> 0 <= n < 2 ^ 32 ->
  ls = [] \/ n = 0 \/ is_blank (buf_at buf start) = true ->
  save_portion ls ns (skipn (Z.to_nat start) buf) n
  = (ls ++ [portion start n], ns ++ [n]).
Proof.
  intros Hs Hn H. unfold save_portion.
  rewrite portion_first_byte by exact Hs.
  assert (E : negb (Ascii.eqb (buf_at buf start) SP) &&
              negb (Ascii.eqb (buf_at buf start) TAB) &&
              negb (n =? 0) && negb (ref_array_len ls =? 0) = false).
  { destruct H as [->|[->|H]].
    - cbn. apply andb_false_r.
    - cbn. rewrite andb_false_r. reflexivity.
    - unfold is_blank in H. apply orb_true_iff in H. destruct H as [H|H]; rewrite H.
      + reflexivity.
      + cbn. rewrite andb_false_r. reflexivity. }
  rewrite E. cbn [Z.eqb app]. rewrite Z.add_0_r, wrap_small by exact Hn.
  reflexivity.
Qed.

(** *** The inner loop *)

Hypothesis buf_not_empty : 0 < len.
Hypothesis buf_in_range : len < 2 ^ 32.
Hypothesis first_not_blank : is_blank (buf_at buf 0) = false.

(** The length the loop cuts when it breaks at [np], beyond [best], with
    [fp] the last folding place seen. *)
Lemma break_fold_len (start best fp np : Z) :
  0 <= start -> start <= fp <= best -> best < np <= len ->
  fp = start \/ is_blank (buf_at buf fp) = true ->
  no_blank (fp + 1) np ->
  exists fl,
    (if (fp =? start) && negb (np =? 0)
     then wrap (np - start) else wrap (fp - start)) = fl /\
    0 < fl /\ start + fl <= np /\
    no_blank (start + fl + 1) np /\
    ((start + fl = np /\ no_blank (start + 1) np) \/
     (start + fl <= best /\ is_blank (buf_at buf (start + fl)) = true)).
Proof.
  intros Hs Hfp Hnp Hfpb Hnb. eqb_false np 0. cbn [negb]. rewrite andb_true_r.
  destruct (Z.eqb_spec fp start) as [Hfs|Hfs].
  - subst fp. exists (np - start). rewrite wrap_small by lia.
    split; [reflexivity|]. split; [lia|]. split; [lia|].
    split; [intros j Hj; lia|].
    left. split; [lia|exact Hnb].
  - exists (fp - start). rewrite wrap_small by lia.
    split; [reflexivity|]. split; [lia|]. split; [lia|].
    replace (start + (fp - start)) with fp by lia.
    split; [exact Hnb|].
    right. split; [lia|]. destruct Hfpb as [?|Hb]; [contradiction|exact Hb].
Qed.

Lemma scan_spec (start best : Z) :
  0 <= start -> 0 < best ->
  forall n i fp np,
    Z.of_nat n = len + 1 - i -> start <= i <= len ->
    start <= fp <= best -> fp <= i ->
    fp = start \/ is_blank (buf_at buf fp) = true ->
    no_blank (fp + 1) i ->
    scan_post start best (scan n buf len best start i fp np false).
Proof.
  intros Hs Hbest. induction n as [|n IH]; intros i fp np Hn Hi Hfp Hfpi Hfpb Hnb.
  - exfalso. lia.
  - cbn [scan]. destruct (Z.eqb_spec i len) as [Hil|Hil].
    + (* the end of the buffer *)
      subst i. destruct (Z.gtb_spec len best) as [Hgt|Hle].
      * cbn [orb scan_post]. rewrite Z.eqb_refl.
        destruct (break_fold_len start best fp len) as (fl & -> & Hfl); try assumption; try lia.
        split; [lia|]. split; [reflexivity|]. split; [lia|exact Hfl].
      * eqb_false len 0. cbn [orb].
        assert (n = 0%nat) by lia. subst n. cbn [scan scan_post].
        split; [reflexivity|]. split; [reflexivity|]. lia.
    + eqb_false best 0. cbn [andb]. rewrite orb_false_r.
      destruct (is_blank (buf_at buf i)) eqn:Hbl.
      * (* a blank *)
        assert (Hi0 : i <> 0) by (intros ->; congruence).
        destruct (Z.gtb_spec i best) as [Hgt|Hle].
        -- cbn [orb scan_post]. eqb_false i len.
           destruct (break_fold_len start best fp i) as (fl & -> & Hfl); try assumption; try lia.
           split; [lia|]. split; [reflexivity|]. split; [intros _; exact Hbl|exact Hfl].
        -- eqb_false i 0. cbn [orb]. apply IH; try lia.
           ++ right. exact Hbl.
           ++ intros j Hj. lia.
      * (* inside a token *)
        apply IH; try lia.
        -- exact Hfpb.
        -- intros j Hj. destruct (Z.eq_dec j i) as [->|Hji]; [exact Hbl|].
           apply Hnb. lia.
Qed.

(** When the whole buffer lies within the preferred folding place, the
    inner loop runs to the end of the buffer. *)
Lemma scan_no_break (start best : Z) :
  len <= best ->
  forall n i fp np d,
    Z.of_nat n = len + 1 - i -> 0 <= i <= len ->
    scan n buf len best start i fp np d = Scan_end len len true.
Proof.
  intros Hbest. induction n as [|n IH]; intros i fp np d Hn Hi.
  - exfalso. lia.
  - cbn [scan]. destruct (Z.eqb_spec i len) as [Hil|Hil].
    + subst i. eqb_false len 0.
      gtb_false len best.
      cbn [orb]. assert (n = 0%nat) by lia. subst n. reflexivity.
    + eqb_false best 0.
      cbn [andb]. rewrite orb_false_r.
      destruct (is_blank (buf_at buf i)) eqn:Hbl.
      * assert (Hi0 : i <> 0) by (intros ->; congruence).
        eqb_false i 0.
        gtb_false i best.
        cbn [orb]. apply IH; lia.
      * apply IH; lia.
Qed.

(** *** The outer loop *)

Hypothesis key_len_nonneg : 0 <= key_len.
Hypothesis key_fits : key_len + INI_FOLDING_OVERHEAD < bound.
Hypothesis no_overflow : len + bound < 2 ^ 32.

Local Abbreviation frag_ok := (frag_ok key_len bound).
Local Abbreviation lines_ok := (lines_ok key_len bound).
Local Abbreviation fold_inv := (fold_inv buf key_len bound).
Local Abbreviation fold_final := (fold_final buf key_len bound).

Lemma lines_ok_snoc (ls : list bytes) (f : bytes) :
  lines_ok ls -> frag_ok (length ls) f -> (ls <> [] -> starts_blank f) ->
  lines_ok (ls ++ [f]).
Proof.
  intros [Hok Hbl] Hf Hs. split.
  - intros i g Hg. destruct (Nat.lt_ge_cases i (length ls)) as [Hi|Hi].
    + rewrite nth_error_app1 in Hg by exact Hi. apply Hok. exact Hg.
    + rewrite nth_error_app2 in Hg by exact Hi.
      destruct (i - length ls)%nat as [|k] eqn:E.
      * injection Hg as <-. replace i with (length ls) by lia. exact Hf.
      * destruct k; discriminate.
  - intros i g Hg. destruct (Nat.lt_ge_cases (S i) (length ls)) as [Hi|Hi].
    + rewrite nth_error_app1 in Hg by exact Hi. apply (Hbl i). exact Hg.
    + rewrite nth_error_app2 in Hg by exact Hi.
      destruct (S i - length ls)%nat as [|k] eqn:E.
      * injection Hg as <-. apply Hs. intros ->. simpl in Hi, E. lia.
      * destruct k; discriminate.
Qed.

(** The width of the line about to be cut, as the pass computes it. *)
Lemma pass_budget (ls : list bytes) :
  exists budget,
    (if Z.of_nat (length ls) =? 0
     then if bound >? wrap (key_len + INI_FOLDING_OVERHEAD)
          then wrap (bound - key_len - INI_FOLDING_OVERHEAD)
          else 0
     else bound) = budget /\
    0 < budget <= bound /\
    forall f, Z.of_nat (length f) <= budget -> fits_line key_len bound (length ls) f.
Proof.
  unfold INI_FOLDING_OVERHEAD in *. destruct ls as [|l ls].
  - exists (bound - key_len - 3). cbn [length Z.of_nat Z.eqb].
    rewrite !wrap_small by lia.
    replace (bound >? key_len + 3) with true by (symmetry; apply Z.gtb_lt; lia).
    split; [reflexivity|]. split; [lia|].
    intros f Hf. cbn [fits_line]. unfold INI_FOLDING_OVERHEAD. lia.
  - exists bound.
    eqb_false (Z.of_nat (length (l :: ls))) 0.
    split; [reflexivity|]. split; [lia|].
    intros f Hf. exact Hf.
Qed.

Lemma whole_token_portion (ls : list bytes) (start n : Z) :
  0 <= start -> 0 <= n ->
  (ls = [] -> start = 0) ->
  no_blank (start + 1) (start + n) ->
  whole_token (length ls) (portion start n).
Proof.
  intros Hs Hn H0 Hnb. destruct ls as [|l ls]; cbn [length whole_token].
  - rewrite (H0 eq_refl) in *. apply portion_blank_free; [lia|lia|].
    intros j Hj. destruct (Z.eq_dec j 0) as [->|Hj0]; [exact first_not_blank|].
    apply Hnb. lia.
  - apply portion_tl_blank_free; assumption.
Qed.

Lemma starts_blank_portion (start n : Z) :
  0 <= start -> 0 <= n -> start + n <= len ->
  n = 0 \/ is_blank (buf_at buf start) = true ->
  starts_blank (portion start n).
Proof.
  intros Hs Hn Hl Hb. destruct (Z.eq_dec n 0) as [->|Hn0].
  - exact I.
  - destruct (portion_head start n) as [t Ht]; [lia|lia|lia|].
    rewrite Ht. destruct Hb as [?|Hb]; [contradiction|exact Hb].
Qed.

(** Appending the portion [start, start + n) to lines that hold the
    first [start] bytes. *)
Lemma add_portion (ls : list bytes) (start n : Z) :
  0 <= start -> 0 <= n -> start + n <= len ->
  concat ls = firstn (Z.to_nat start) buf ->
  lines_ok ls ->
  (ls = [] -> start = 0) ->
  (ls <> [] -> n = 0 \/ is_blank (buf_at buf start) = true) ->
  fits_line key_len bound (length ls) (portion start n) \/
  no_blank (start + 1) (start + n) ->
  concat (ls ++ [portion start n]) = firstn (Z.to_nat (start + n)) buf /\
  map (fun f => Z.of_nat (length f)) (ls ++ [portion start n])
  = map (fun f => Z.of_nat (length f)) ls ++ [n] /\
  lines_ok (ls ++ [portion start n]).
Proof.
  intros Hs Hn Hl Hcat Hok H0 Hb Hf. split; [|split].
  - apply concat_portion; assumption.
  - rewrite map_app. cbn [map]. rewrite portion_length by assumption. reflexivity.
  - apply lines_ok_snoc.
    + exact Hok.
    + destruct Hf as [Hf|Hf]; [left; exact Hf|right].
      apply whole_token_portion; assumption.
    + intros Hne. apply starts_blank_portion; try assumption. apply Hb. exact Hne.
Qed.

Lemma fold_body_spec (v : fold_vars) :
  fold_inv v ->
  (fold_inv (fold_body buf len key_len bound v) /\
   start_place v < start_place (fold_body buf len key_len bound v)) \/
  fold_final (fold_body buf len key_len bound v).
Proof.
  intros [Hd [Hr1 Hr2] Htok Hidx Hst Hcat Hlen Hok].
  destruct v as [start resume ix dn ls ns].
  cbn [start_place resume_place idx done lines lengths] in *.
  subst dn ix ns.
  assert (Hls0 : ls = [] -> start = 0) by (destruct Hst as [[_ ?]|[? _]]; tauto).
  assert (Hlsb : ls <> [] -> is_blank (buf_at buf start) = true)
    by (destruct Hst as [[? _]|[_ [_ ?]]]; tauto).
  assert (Hcnt : Z.of_nat (length ls) <= start)
    by (destruct Hst as [[-> ->]|[_ [? _]]]; [simpl; lia|assumption]).
  unfold fold_body. cbn [start_place resume_place idx done lines lengths].
  destruct (pass_budget ls) as [budget [-> [Hbud Hfits]]].
  rewrite (wrap_small (budget + start)) by lia.
  pose proof (scan_spec start (budget + start) ltac:(lia) ltac:(lia)
                        (Z.to_nat (len + 1 - resume)) resume start start
                        ltac:(lia) ltac:(lia) ltac:(lia) ltac:(lia)
                        (or_introl eq_refl) Htok) as Hscan.
  destruct (scan _ _ _ _ _ _ _ _ _) as [np fl d|np fp d]; cbn [scan_post] in Hscan.
  - destruct Hscan as (Hnp & Hdq & Hnpb & Hfl & Hflnp & Hnb2 & Hcase).
    rewrite save_portion_plain;
      [|lia|lia|destruct ls; [left; reflexivity|right; right; apply Hlsb; discriminate]].
    cbn [start_place resume_place idx done lines lengths].
    rewrite (wrap_small (start + fl)) by lia.
    rewrite (wrap_small (Z.of_nat (length ls) + 1)) by lia.
    destruct (add_portion ls start fl) as (Hcat1 & Hlen1 & Hok1); try lia; try assumption.
    { intros Hne. right. apply Hlsb. exact Hne. }
    { destruct Hcase as [[Hc1 Hc2]|[Hc1 Hc2]].
      - right. rewrite Hc1. exact Hc2.
      - left. apply Hfits. rewrite portion_length by lia. lia. }
    assert (Hne1 : ls ++ [portion start fl] <> []) by (destruct ls; discriminate).
    assert (Hb1 : np < len \/ start + fl < np -> is_blank (buf_at buf (start + fl)) = true).
    { intros Hlt. destruct Hcase as [[Hc1 Hc2]|[Hc1 Hc2]]; [|exact Hc2].
      rewrite Hc1. apply Hnpb. lia. }
    subst d. destruct (Z.eqb_spec np len) as [Hnl|Hnl].
    + (* the end of the buffer was met: the last portion is saved too *)
      right. subst np.
      rewrite (wrap_small (len - (start + fl))) by lia.
      rewrite save_portion_plain;
        [|lia|lia|destruct (Z.eq_dec (len - (start + fl)) 0);
                  [right; left; assumption|right; right; apply Hb1; lia]].
      destruct (add_portion (ls ++ [portion start fl]) (start + fl) (len - (start + fl)))
        as (Hcat2 & Hlen2 & Hok2); try lia; try assumption.
      { intros E. contradiction. }
      { intros _. destruct (Z.eq_dec (len - (start + fl)) 0); [left; assumption|].
        right. apply Hb1. lia. }
      { right. replace (start + fl + (len - (start + fl))) with len by lia. exact Hnb2. }
      constructor; cbn [start_place resume_place idx done lines lengths].
      * reflexivity.
      * rewrite Hcat2. replace (start + fl + (len - (start + fl))) with len by lia.
        rewrite Nat2Z.id. apply firstn_all.
      * rewrite Hlen2, Hlen1. reflexivity.
      * exact Hok2.
    + left. split; [|cbn [start_place]; lia].
      constructor; cbn [start_place resume_place idx done lines lengths].
      * reflexivity.
      * lia.
      * exact Hnb2.
      * rewrite length_app. simpl length. lia.
      * right. split; [exact Hne1|]. split.
        -- rewrite length_app. simpl length. lia.
        -- apply Hb1. lia.
      * exact Hcat1.
      * rewrite Hlen1. reflexivity.
      * exact Hok1.
  - destruct Hscan as (-> & -> & Hle).
    cbn [start_place resume_place idx done lines lengths].
    right.
    rewrite (wrap_small (len - start)) by lia.
    rewrite save_portion_plain;
      [|lia|lia|destruct ls; [left; reflexivity|right; right; apply Hlsb; discriminate]].
    destruct (add_portion ls start (len - start)) as (Hcat1 & Hlen1 & Hok1);
      try lia; try assumption.
    { intros Hne. right. apply Hlsb. exact Hne. }
    { left. apply Hfits. rewrite portion_length by lia. lia. }
    constructor; cbn [start_place resume_place idx done lines lengths].
    + reflexivity.
    + rewrite Hcat1. replace (start + (len - start)) with len by lia.
      rewrite Nat2Z.id. apply firstn_all.
    + rewrite Hlen1. reflexivity.
    + exact Hok1.
Qed.

Lemma fold_loop_terminates :
  forall (m : nat) (v : fold_vars),
    fold_inv v -> len - start_place v <= Z.of_nat m ->
    exists fuel r, fold_loop fuel buf len key_len bound v = Some r /\ fold_final r.
Proof.
  induction m as [|m IH]; intros v Hv Hm;
    destruct (fold_body_spec v Hv) as [[Hv' Hlt]|Hfin].
  - exfalso. pose proof (inv_range _ _ _ _ Hv') as [? ?]. lia.
  - exists 1%nat, (fold_body buf len key_len bound v).
    cbn [fold_loop]. rewrite (inv_done _ _ _ _ Hv), (fin_done _ _ _ _ Hfin).
    split; [reflexivity|exact Hfin].
  - destruct (IH _ Hv') as (fuel & r & Hr & Hfin); [lia|].
    exists (S fuel), r. cbn [fold_loop]. rewrite (inv_done _ _ _ _ Hv).
    split; [exact Hr|exact Hfin].
  - exists 1%nat, (fold_body buf len key_len bound v).
    cbn [fold_loop]. rewrite (inv_done _ _ _ _ Hv), (fin_done _ _ _ _ Hfin).
    split; [reflexivity|exact Hfin].
Qed.

Lemma fold_inv_initial :
  fold_inv {| start_place := 0; resume_place := 0; idx := 0; done := false;
              lines := []; lengths := [] |}.
Proof.
  constructor; cbn [start_place resume_place idx done lines lengths].
  - reflexivity.
  - lia.
  - intros j Hj. lia.
  - reflexivity.
  - left. split; reflexivity.
  - reflexivity.
  - reflexivity.
  - split; intros i f H; destruct i; discriminate.
Qed.

End FoldFacts.

Lemma stored_fragments_exact (ls : list bytes) :
  stored_fragments ls (map (fun f => Z.of_nat (length f)) ls) = ls.
Proof.
  induction ls as [|l ls IH]; [reflexivity|].
  unfold stored_fragments in *. cbn [map combine fst snd].
  rewrite read_bytes_all, IH. reflexivity.
Qed.


(** A value that is empty or begins with a byte other than a blank,
    folded with room for the key on the first line and without overflow:
    the fold returns, its lines are the value cut in pieces, the length
    array is parallel to them, and every line is in order. *)
Lemma value_fold_regular (buf : bytes) (key_len boundary : Z) :
  0 <= key_len ->
  key_len + INI_FOLDING_OVERHEAD < boundary ->
  Z.of_nat (length buf) + boundary < 2 ^ 32 ->
  is_blank (buf_at buf 0) = false ->
  exists fuel ls,
    value_fold fuel buf key_len boundary [] []
    = Some (ls, map (fun f => Z.of_nat (length f)) ls) /\
    concat ls = buf /\
    lines_ok key_len boundary ls.
Proof.
  intros Hk Hb Hov H0. unfold INI_FOLDING_OVERHEAD in *.
  destruct buf as [|c rest].
  - exists 1%nat, [[]; []]. split; [apply (value_fold_empty 0)|].
    split; [reflexivity|]. split.
    + intros i f Hf. left.
      destruct i as [|[|i]]; cbn in Hf; try (destruct i; discriminate);
        injection Hf as <-; cbn; unfold INI_FOLDING_OVERHEAD; lia.
    + intros i f Hf. destruct i as [|i]; cbn in Hf; [|destruct i; discriminate].
      injection Hf as <-. exact I.
  - assert (Hpos : 0 < Z.of_nat (length (c :: rest))) by (simpl length; lia).
    assert (Hinit : fold_inv (c :: rest) key_len boundary
                      {| start_place := 0; resume_place := 0; idx := 0; done := false;
                         lines := []; lengths := [] |})
      by (apply fold_inv_initial; assumption || lia).
    pose proof (fold_loop_terminates (c :: rest) key_len boundary) as T.
    repeat match type of T with
           | ?P -> _ =>
               let H := fresh in
               assert (H : P) by (assumption || (unfold INI_FOLDING_OVERHEAD; lia));
               specialize (T H); clear H
           end.
    destruct (T (length (c :: rest)) _ Hinit) as (fuel & r & Hr & Hfin).
    { cbn [start_place]. lia. }
    exists fuel, (lines r). unfold value_fold, ref_array_reset, simplebuffer_get_len.
    eqb_false boundary 0.
    rewrite Hr. rewrite (fin_lengths _ _ _ _ Hfin).
    split; [reflexivity|]. split; [exact (fin_concat _ _ _ _ Hfin)|].
    exact (fin_lines _ _ _ _ Hfin).
Qed.

(** ** Line widths *)

(** C2 (as stated, refuted): "a bbbb" under an empty key and boundary 4
    folds into "a" and " bbbb".  The second fragment has 5 bytes; it is
    not a blank-free token, and the token it carries is as wide as the
    boundary, not wider. *)
Lemma fold_blank_before_token_overruns :
  value_fold 1 (str "a bbbb") 0 4 [] [] = Some ([str "a"; str " bbbb"], [1; 5]) /\
  ~ fragments_fit_as_stated 0 4 [str "a"; str " bbbb"] /\
  Z.of_nat (length (tl (str " bbbb"))) <= line_budget 0 4 1.
Proof.
  split; [reflexivity|]. split.
  - intros H. destruct (H 1%nat (str " bbbb") eq_refl) as [Hfit|[Hfree _]].
    + cbn in Hfit. lia.
    + discriminate Hfree.
  - cbn. lia.
Qed.

(** C2 (amended): for a value that is empty or begins with a byte other
    than space and tab, a key that leaves room on the first line
    ([key_len + 3 < boundary]) and no 32-bit overflow
    ([length + boundary < 2^32]), the fold returns; each recorded length
    is the length of its fragment, the fragments are the value cut in
    pieces, every fragment after the first is empty or
    begins with the blank at which the value was cut, and every fragment
    fits its line (first: [key_len + 3 + length <= boundary], later:
    [length <= boundary]) unless it is one whole blank-free token,
    preceded on a later line by that one blank. *)
Theorem fold_fragments_fit (buf : bytes) (key_len boundary : Z) :
  0 <= key_len ->
  key_len + INI_FOLDING_OVERHEAD < boundary ->
  Z.of_nat (length buf) + boundary < 2 ^ 32 ->
  is_blank (buf_at buf 0) = false ->
  exists fuel ls ns,
    value_fold fuel buf key_len boundary [] [] = Some (ls, ns) /\
    ns = map (fun f => Z.of_nat (length f)) ls /\
    concat ls = buf /\
    (forall i f, nth_error ls (S i) = Some f -> starts_blank f) /\
    (forall i f, nth_error ls i = Some f ->
                 fits_line key_len boundary i f \/ whole_token i f).
Proof.
  intros Hk Hb Hov H0.
  destruct (value_fold_regular buf key_len boundary Hk Hb Hov H0)
    as (fuel & ls & Hf & Hcat & Hok & Hbl).
  exists fuel, ls, (map (fun f => Z.of_nat (length f)) ls).
  split; [exact Hf|]. split; [reflexivity|]. split; [exact Hcat|].
  split; [exact Hbl|exact Hok].
Qed.

Lemma fold_fragments_fit_witness :
  exists fuel ls ns,
    value_fold fuel (str "a bbbb") 0 4 [] [] = Some (ls, ns) /\
    ns = map (fun f => Z.of_nat (length f)) ls /\
    concat ls = str "a bbbb" /\
    (forall i f, nth_error ls (S i) = Some f -> starts_blank f) /\
    (forall i f, nth_error ls i = Some f -> fits_line 0 4 i f \/ whole_token i f).
Proof.
  apply (fold_fragments_fit (str "a bbbb") 0 4).
  - lia.
  - unfold INI_FOLDING_OVERHEAD. lia.
  - simpl length. lia.
  - reflexivity.
Defined.

(** ** Folding and unfolding *)

(** Under the conditions of [value_fold_regular], unfolding what the fold
    stored gives the value back. *)
Theorem fold_unfold_regular (buf : bytes) (key_len boundary : Z) :
  0 <= key_len ->
  key_len + INI_FOLDING_OVERHEAD < boundary ->
  Z.of_nat (length buf) + boundary < 2 ^ 32 ->
  is_blank (buf_at buf 0) = false ->
  exists fuel ls ns,
    value_fold fuel buf key_len boundary [] [] = Some (ls, ns) /\
    value_unfold ls ns = Some buf.
Proof.
  intros Hk Hb Hov H0.
  destruct (value_fold_regular buf key_len boundary Hk Hb Hov H0)
    as (fuel & ls & Hf & Hcat & _).
  exists fuel, ls, (map (fun f => Z.of_nat (length f)) ls).
  split; [exact Hf|].
  rewrite value_unfold_parallel by apply length_map.
  rewrite stored_fragments_exact, Hcat. reflexivity.
Qed.

Lemma fold_unfold_regular_witness :
  exists fuel ls ns,
    value_fold fuel (str "aaaa bbbb cccc") 3 10 [] [] = Some (ls, ns) /\
    value_unfold ls ns = Some (str "aaaa bbbb cccc").
Proof.
  apply (fold_unfold_regular (str "aaaa bbbb cccc") 3 10).
  - lia.
  - unfold INI_FOLDING_OVERHEAD. lia.
  - simpl length. lia.
  - reflexivity.
Defined.

(** A value that begins with a byte other than a blank and is shorter
    than the first-line budget is stored as one fragment, the value. *)
Theorem fold_short_value_regular (fuel : nat) (buf : bytes) (key_len boundary : Z) :
  0 <= key_len ->
  boundary < 2 ^ 32 ->
  buf <> [] ->
  is_blank (buf_at buf 0) = false ->
  Z.of_nat (length buf) < boundary - key_len - INI_FOLDING_OVERHEAD ->
  value_fold (1 + fuel) buf key_len boundary [] []
  = Some ([buf], [Z.of_nat (length buf)]).
Proof.
  intros Hk Hb Hne H0 Hshort. unfold INI_FOLDING_OVERHEAD in Hshort.
  assert (Hpos : 0 < Z.of_nat (length buf)) by (destruct buf; [contradiction|simpl length; lia]).
  apply value_fold_more_fuel.
  unfold value_fold, ref_array_reset, simplebuffer_get_len.
  eqb_false boundary 0.
  cbn [fold_loop done]. unfold fold_body, INI_FOLDING_OVERHEAD.
  cbn [start_place resume_place idx done lines lengths Z.eqb].
  rewrite (wrap_small (key_len + 3)) by lia.
  replace (boundary >? key_len + 3) with true by (symmetry; apply Z.gtb_lt; lia).
  rewrite (wrap_small (boundary - key_len - 3)) by lia.
  rewrite Z.add_0_r, (wrap_small (boundary - key_len - 3)) by lia.
  rewrite (scan_no_break buf Hpos H0) by lia.
  cbn [done start_place lines lengths].
  rewrite Z.sub_0_r, wrap_small by lia.
  rewrite save_portion_plain by (try lia; left; reflexivity).
  cbn [lines lengths app]. unfold portion. cbn [Z.to_nat skipn].
  rewrite read_bytes_all. reflexivity.
Qed.

Lemma fold_short_value_regular_witness :
  value_fold 1 (str "short") 3 100 [] [] = Some ([str "short"], [5]).
Proof.
  apply (fold_short_value_regular 0 (str "short") 3 100).
  - lia.
  - lia.
  - discriminate.
  - reflexivity.
  - unfold INI_FOLDING_OVERHEAD. simpl length. lia.
Defined.

(** C1 (the code's behaviour on a value with a leading blank): the value
    " a", under an empty key and boundary 100, has one token of one byte,
    within both budgets, and [value_fold] does not return on it whatever
    the fuel: each pass saves an empty portion and resumes at byte 0. *)
Theorem fold_leading_blank_token_loops :
  tokens_within_budgets (str " a") 0 100 /\
  forall fuel ls ns, value_fold fuel (str " a") 0 100 ls ns = None.
Proof.
  split.
  - unfold tokens_within_budgets. cbn.
    constructor; [|constructor]. unfold first_line_budget, INI_FOLDING_OVERHEAD. lia.
  - intros fuel ls ns. apply value_fold_leading_blank. reflexivity.
Qed.

(** Scenario B: "short" under a 3-byte key and boundary 100 is one
    fragment and serializes as "foo = short" and one terminator. *)
Theorem scenario_no_fold_needed (cr : bytes) (fuel : nat) :
  exists vo,
    value_create_new (1 + fuel) (str "short") 5 0 3 100 None = Some vo /\
    raw_lines vo = [str "short"] /\ raw_lengths vo = [5] /\
    value_serialize cr vo (str "foo") = Some (str "foo = short" ++ cr).
Proof.
  assert (F : value_fold (1 + fuel) (str "short") 3 100 [] [] = Some ([str "short"], [5])).
  { apply value_fold_more_fuel. reflexivity. }
  unfold value_create_new.
  change (simplebuffer_add_raw simplebuffer_alloc (str "short") 5) with (str "short").
  cbv beta iota delta [value_create_arrays]. rewrite F.
  eexists. split; [reflexivity|]. split; [reflexivity|]. split; [reflexivity|].
  match goal with
  | |- value_serialize cr ?vo ?key = _ =>
      destruct (value_serialize_prefix cr vo key) as [after [Hs Ha]];
      rewrite Hs, (Ha eq_refl)
  end.
  unfold with_terminators, stored_fragments. cbn.
  rewrite app_nil_r. reflexivity.
Qed.

(** C9 (the code's behaviour on a short value with a leading blank): the
    value " x" is not empty and shorter than the first-line budget of a
    3-byte key under boundary 100, and [value_fold] does not return on
    it whatever the fuel, so no single fragment is produced. *)
Theorem fold_short_value_leading_blank_loops :
  str " x" <> [] /\
  Z.of_nat (length (str " x")) < first_line_budget 3 100 /\
  forall fuel ls ns, value_fold fuel (str " x") 3 100 ls ns = None.
Proof.
  split; [discriminate|]. split.
  - unfold first_line_budget, INI_FOLDING_OVERHEAD. cbn. lia.
  - intros fuel ls ns. apply value_fold_leading_blank. reflexivity.
Qed.

(** ** What every fold stores *)

Lemma folded_lines_snoc (ls ps : list bytes) (l p : bytes) :
  folded_lines ls ps ->
  (ls = [] -> l = p) ->
  (ls <> [] -> folded_line l p) ->
  folded_lines (ls ++ [l]) (ps ++ [p]).
Proof.
  intros H H0 H1. destruct ls as [|l0 ls], ps as [|p0 ps]; cbn in *; try contradiction.
  - split; [apply H0; reflexivity|constructor].
  - destruct H as [-> H]. split; [reflexivity|].
    apply Forall2_app; [exact H|]. constructor; [|constructor].
    apply H1. discriminate.
Qed.

Lemma folded_line_starts_blank (l p : bytes) : folded_line l p -> starts_blank l.
Proof. intros [[H ->]|[_ ->]]; [exact H|reflexivity]. Qed.

Lemma folded_lines_continuation (ls ps : list bytes) :
  folded_lines ls ps ->
  forall i f, nth_error ls (S i) = Some f -> starts_blank f.
Proof.
  intros H i f Hf. destruct ls as [|l0 ls], ps as [|p0 ps]; cbn in *; try contradiction;
    try discriminate.
  destruct H as [_ H]. revert i Hf.
  induction H as [|l p ls' ps' Hl _ IH]; intros i Hf.
  - destruct i; discriminate.
  - destruct i as [|i]; cbn in Hf.
    + injection Hf as <-. exact (folded_line_starts_blank _ _ Hl).
    + exact (IH i Hf).
Qed.

Section FoldSound.

Variable buf : bytes.

Local Abbreviation len := (Z.of_nat (length buf)).
Local Abbreviation portion := (portion buf).

Hypothesis buf_in_range : len + 1 < 2 ^ 32.

Lemma scan_general (start best : Z) :
  0 <= start ->
  forall n i fp np,
    Z.of_nat n = len + 1 - i -> start <= i <= len -> start <= fp <= i ->
    scan_sound buf start (scan n buf len best start i fp np false).
Proof.
  intros Hs. induction n as [|n IH]; intros i fp np Hn Hi Hfp.
  - exfalso. lia.
  - cbn [scan].
    destruct (Z.eqb_spec i len) as [Hil|Hil].
    + destruct ((i >? best) || (i =? 0)).
      * cbn [scan_sound].
        destruct ((fp =? start) && negb (i =? 0)); rewrite wrap_small by lia;
          (split; [lia|]); (split; [lia|]); intros _; exact Hil.
      * assert (n = 0%nat) by lia. subst n. cbn [scan scan_sound].
        split; [reflexivity|exact Hil].
    + destruct (is_blank (buf_at buf i) || (best =? 0) && (i =? 0)).
      * destruct ((i >? best) || (i =? 0)).
        -- cbn [scan_sound].
           destruct ((fp =? start) && negb (i =? 0)); rewrite wrap_small by lia;
             (split; [lia|]); (split; [lia|]); intros Hd; discriminate Hd.
        -- apply IH; lia.
      * apply IH; lia.
Qed.

Lemma save_portion_sound (ls : ref_array bytes) (ns : ref_array Z) (start n : Z) :
  0 <= start -> 0 <= n -> start + n <= len ->
  exists l,
    save_portion ls ns (skipn (Z.to_nat start) buf) n
    = (ls ++ [l], ns ++ [Z.of_nat (length l)]) /\
    (ls = [] -> l = portion start n) /\
    (ls <> [] -> folded_line l (portion start n)).
Proof.
  intros Hs Hn Hl. unfold save_portion. rewrite portion_first_byte by exact Hs.
  destruct (negb (Ascii.eqb (buf_at buf start) SP) &&
            negb (Ascii.eqb (buf_at buf start) TAB) &&
            negb (n =? 0) && negb (ref_array_len ls =? 0)) eqn:E.
  - (* a space is put in front *)
    apply andb_true_iff in E. destruct E as [E Hra].
    apply andb_true_iff in E. destruct E as [E Hn0].
    apply andb_true_iff in E. destruct E as [Hsp Htab].
    apply negb_true_iff in Hsp, Htab, Hn0, Hra.
    apply Z.eqb_neq in Hn0, Hra.
    exists (SP :: portion start n). cbn [Z.eqb app length].
    rewrite wrap_small by lia. rewrite Nat2Z.inj_succ, portion_length by assumption.
    split; [unfold ref_array_append, portion; f_equal; f_equal; lia|].
    split.
    + intros ->. exfalso. apply Hra. reflexivity.
    + intros _. right. split; [|reflexivity].
      destruct (portion_head buf start n) as [t Ht]; [lia|lia|lia|].
      fold (portion start n). rewrite Ht. cbn [starts_blank]. unfold is_blank.
      rewrite Hsp, Htab. discriminate.
  - exists (portion start n). cbn [Z.eqb app].
    rewrite Z.add_0_r, wrap_small by lia. rewrite portion_length by assumption.
    split; [reflexivity|]. split; [reflexivity|].
    intros Hne. left. split; [|reflexivity].
    apply starts_blank_portion; try assumption.
    destruct (Z.eq_dec n 0) as [Hn0|Hn0]; [left; exact Hn0|right].
    apply andb_false_iff in E. destruct E as [E|E].
    + apply andb_false_iff in E. destruct E as [E|E].
      * unfold is_blank. apply andb_false_iff in E.
        destruct E as [E|E]; apply negb_false_iff in E; rewrite E;
          [reflexivity|apply orb_true_r].
      * apply negb_false_iff, Z.eqb_eq in E. contradiction.
    + apply negb_false_iff, Z.eqb_eq in E. unfold ref_array_len in E.
      destruct ls; [contradiction|simpl length in E; lia].
Qed.

Lemma pieces_snoc (ps : list bytes) (start n : Z) :
  0 <= start -> 0 <= n ->
  concat ps = firstn (Z.to_nat start) buf ->
  concat (ps ++ [portion start n]) = firstn (Z.to_nat (start + n)) buf.
Proof. intros. apply concat_portion; assumption. Qed.

Lemma fold_body_sound (key_len fold_bound : Z) (v : fold_vars) :
  fold_sound buf v -> done v = false ->
  fold_sound buf (fold_body buf len key_len fold_bound v).
Proof.
  intros [[Hr1 Hr2] Hlen [ps [Hcat Hps]] _] Hd.
  destruct v as [start resume ix dn ls ns].
  cbn [start_place resume_place idx done lines lengths] in *.
  subst dn ns.
  unfold fold_body. cbn [start_place resume_place idx done lines lengths].
  match goal with
  | |- context [scan _ _ _ ?b _ _ _ _ _] => generalize b; intros best
  end.
  pose proof (scan_general start best ltac:(lia)
                           (Z.to_nat (len + 1 - resume)) resume start start
                           ltac:(lia) ltac:(lia) ltac:(lia)) as Hscan.
  destruct (scan _ _ _ _ _ _ _ _ _) as [np fl d|np fp d]; cbn [scan_sound] in Hscan.
  - destruct Hscan as (Hfl & Hnp & Hdn).
    destruct (save_portion_sound ls (map (fun f => Z.of_nat (length f)) ls) start fl)
      as (l1 & -> & Hl1 & Hl1'); try lia.
    cbn [start_place resume_place idx done lines lengths].
    rewrite (wrap_small (start + fl)) by lia.
    pose proof (pieces_snoc ps start fl ltac:(lia) Hfl Hcat) as Hcat1.
    pose proof (folded_lines_snoc ls ps l1 (portion start fl) Hps Hl1 Hl1') as Hps1.
    destruct d.
    + specialize (Hdn eq_refl). subst np.
      rewrite (wrap_small (len - (start + fl))) by lia.
      destruct (save_portion_sound (ls ++ [l1])
                  (map (fun f => Z.of_nat (length f)) ls ++ [Z.of_nat (length l1)])
                  (start + fl) (len - (start + fl)))
        as (l2 & -> & Hl2 & Hl2'); try lia.
      constructor; cbn [start_place resume_place idx done lines lengths].
      * lia.
      * rewrite !map_app. reflexivity.
      * exists ((ps ++ [portion start fl]) ++ [portion (start + fl) (len - (start + fl))]).
        split.
        -- rewrite (pieces_snoc _ (start + fl) (len - (start + fl))) by (lia || assumption).
           f_equal. lia.
        -- apply folded_lines_snoc; assumption.
      * intros _. destruct ls; discriminate.
    + constructor; cbn [start_place resume_place idx done lines lengths].
      * lia.
      * rewrite map_app. reflexivity.
      * exists (ps ++ [portion start fl]). split; assumption.
      * discriminate.
  - destruct Hscan as (-> & ->).
    cbn [start_place resume_place idx done lines lengths].
    rewrite (wrap_small (len - start)) by lia.
    destruct (save_portion_sound ls (map (fun f => Z.of_nat (length f)) ls) start (len - start))
      as (l1 & -> & Hl1 & Hl1'); try lia.
    constructor; cbn [start_place resume_place idx done lines lengths].
    + lia.
    + rewrite map_app. reflexivity.
    + exists (ps ++ [portion start (len - start)]). split.
      * rewrite (pieces_snoc _ start (len - start)) by (lia || assumption).
        f_equal. lia.
      * apply folded_lines_snoc; assumption.
    + intros _. destruct ls; discriminate.
Qed.

Lemma fold_loop_sound (key_len fold_bound : Z) :
  forall fuel v r,
    fold_sound buf v ->
    fold_loop fuel buf len key_len fold_bound v = Some r ->
    fold_sound buf r /\ done r = true.
Proof.
  induction fuel as [|fuel IH]; intros v r Hv Hr; cbn [fold_loop] in Hr;
    destruct (done v) eqn:Hd.
  - injection Hr as <-. split; assumption.
  - discriminate.
  - injection Hr as <-. split; assumption.
  - apply (IH _ _ (fold_body_sound key_len fold_bound v Hv Hd) Hr).
Qed.

End FoldSound.

(** Whatever the value, the key length and the boundary: when [value_fold]
    returns, it has stored at least one line, the recorded lengths are
    the lengths of the lines, and the lines are the value cut into
    portions, in order, the first line being its portion and every later
    line being its portion when that is empty or begins with a blank, and
    its portion behind one space otherwise; so every later line is empty
    or begins with a blank. *)
Theorem value_fold_stores_the_value (fuel : nat) (buf : bytes) (key_len boundary : Z)
        (ls0 : ref_array bytes) (ns0 : ref_array Z) (ls : ref_array bytes) (ns : ref_array Z) :
  Z.of_nat (length buf) + 1 < 2 ^ 32 ->
  value_fold fuel buf key_len boundary ls0 ns0 = Some (ls, ns) ->
  ls <> [] /\
  ns = map (fun f => Z.of_nat (length f)) ls /\
  (exists pieces, concat pieces = buf /\ folded_lines ls pieces) /\
  (forall i f, nth_error ls (S i) = Some f -> starts_blank f).
Proof.
  intros Hrange H. unfold value_fold, ref_array_reset, simplebuffer_get_len in H.
  destruct (fold_loop _ _ _ _ _ _) as [r|] eqn:E; [|discriminate].
  injection H as <- <-.
  assert (Hinit : fold_sound buf {| start_place := 0; resume_place := 0; idx := 0;
                                     done := false; lines := []; lengths := [] |}).
  { constructor; cbn [start_place resume_place idx done lines lengths].
    - lia.
    - reflexivity.
    - exists []. split; [reflexivity|exact I].
    - discriminate. }
  destruct (fold_loop_sound buf Hrange _ _ _ _ _ Hinit E) as [Hr Hd].
  destruct Hr as [_ Hlen [ps [Hcat Hps]] Hne]. rewrite Hd in Hcat.
  rewrite Nat2Z.id, firstn_all in Hcat.
  split; [exact (Hne Hd)|]. split; [exact Hlen|].
  split; [exists ps; split; assumption|].
  exact (folded_lines_continuation _ _ Hps).
Qed.

Lemma value_fold_stores_the_value_witness :
  [[]; str " aaaa bbbb"; str " cccc"] <> [] /\
  [0; 10; 5] = map (fun f => Z.of_nat (length f)) [[]; str " aaaa bbbb"; str " cccc"] /\
  (exists pieces,
      concat pieces = str "aaaa bbbb cccc" /\
      folded_lines [[]; str " aaaa bbbb"; str " cccc"] pieces) /\
  (forall i f, nth_error [[]; str " aaaa bbbb"; str " cccc"] (S i) = Some f -> starts_blank f).
Proof.
  apply (value_fold_stores_the_value 3 (str "aaaa bbbb cccc") 7 10 [] []).
  - simpl length. lia.
  - reflexivity.
Defined.

(** ** Folding when the key leaves no room on the first line *)

(** The passes of [value_fold] only append to the arrays. *)
Lemma fold_body_extends (buf : bytes) (len key_len fold_bound : Z) (v : fold_vars) :
  exists ls ns,
    lines (fold_body buf len key_len fold_bound v) = lines v ++ ls /\
    lengths (fold_body buf len key_len fold_bound v) = lengths v ++ ns.
Proof.
  unfold fold_body, save_portion, ref_array_append.
  destruct (scan _ _ _ _ _ _ _ _ _) as [np fl d|np fp d];
    cbn [start_place resume_place idx done lines lengths]; destruct d;
    cbn [start_place resume_place idx done lines lengths].
  - eexists _, _. rewrite <- !app_assoc. split; reflexivity.
  - eexists _, _. split; reflexivity.
  - eexists _, _. split; reflexivity.
  - exists [], []. rewrite !app_nil_r. split; reflexivity.
Qed.

Lemma fold_loop_extends (buf : bytes) (len key_len fold_bound : Z) :
  forall fuel v r,
    fold_loop fuel buf len key_len fold_bound v = Some r ->
    exists ls ns, lines r = lines v ++ ls /\ lengths r = lengths v ++ ns.
Proof.
  induction fuel as [|fuel IH]; intros v r Hr; cbn [fold_loop] in Hr;
    destruct (done v).
  - injection Hr as <-. exists [], []. rewrite !app_nil_r. split; reflexivity.
  - discriminate.
  - injection Hr as <-. exists [], []. rewrite !app_nil_r. split; reflexivity.
  - destruct (IH _ _ Hr) as (ls & ns & Hl & Hn).
    destruct (fold_body_extends buf len key_len fold_bound v) as (ls' & ns' & Hl' & Hn').
    exists (ls' ++ ls), (ns' ++ ns). rewrite Hl, Hn, Hl', Hn', <- !app_assoc.
    split; reflexivity.
Qed.

Section FoldRun.

Variable buf : bytes.
Variable bound : Z.

Local Abbreviation len := (Z.of_nat (length buf)).
Local Abbreviation no_blank := (no_blank buf).
Local Abbreviation portion := (portion buf).

Hypothesis buf_not_empty : 0 < len.
Hypothesis first_not_blank : is_blank (buf_at buf 0) = false.
Hypothesis bound_positive : 0 < bound.
Hypothesis no_overflow : len + bound < 2 ^ 32.

Lemma concat_portion_behind (pre : bytes) (ls : list bytes) (start n : Z) :
  0 <= start -> 0 <= n ->
  concat ls = pre ++ firstn (Z.to_nat start) buf ->
  concat (ls ++ [portion start n]) = pre ++ firstn (Z.to_nat (start + n)) buf.
Proof.
  intros Hs Hn H. rewrite concat_app, H. cbn [concat]. rewrite app_nil_r, <- app_assoc.
  unfold portion, read_bytes. rewrite Z2Nat.inj_add by lia.
  now rewrite <- firstn_add_skipn.
Qed.

(** [save_portion] on an array that is not empty, for a portion that is
    not empty and begins with a byte other than a blank. *)
Lemma save_portion_spaced (ls : ref_array bytes) (ns : ref_array Z) (start n : Z) :
  0 <= start -> 0 < n -> n + 1 < 2 ^ 32 ->
  ls <> [] -> is_blank (buf_at buf start) = false ->
  save_portion ls ns (skipn (Z.to_nat start) buf) n
  = (ls ++ [SP :: portion start n], ns ++ [n + 1]).
Proof.
  intros Hs Hn Hr Hne Hb. unfold save_portion.
  rewrite portion_first_byte by exact Hs.
  unfold is_blank in Hb. apply orb_false_iff in Hb. destruct Hb as [-> ->].
  eqb_false n 0.
  replace (ref_array_len ls =? 0) with false
    by (symmetry; apply Z.eqb_neq; unfold ref_array_len; destruct ls;
        [contradiction|simpl length; lia]).
  cbn [negb andb Z.eqb app]. rewrite wrap_small by lia. reflexivity.
Qed.

(** A pass from the second on. *)
Lemma fold_run_step (pre : bytes) (key_len : Z) (v : fold_vars) :
  fold_run buf pre v ->
  (fold_run buf pre (fold_body buf len key_len bound v) /\
   start_place v < start_place (fold_body buf len key_len bound v)) \/
  fold_end buf pre (fold_body buf len key_len bound v).
Proof.
  intros [Hd [Hr1 Hr2] Htok Hidx Hne Hbl Hcat Hlen].
  destruct v as [start resume ix dn ls ns].
  cbn [start_place resume_place idx done lines lengths] in *.
  subst dn ns.
  assert (Hsl : start < len).
  { destruct (Z.lt_ge_cases start len) as [?|Hge]; [assumption|exfalso].
    unfold buf_at in Hbl. rewrite nth_overflow in Hbl by lia. discriminate Hbl. }
  unfold fold_body. cbn [start_place resume_place idx done lines lengths].
  eqb_false ix 0. rewrite (wrap_small (bound + start)) by lia.
  pose proof (scan_spec buf buf_not_empty ltac:(lia) first_not_blank
                        start (bound + start) ltac:(lia) ltac:(lia)
                        (Z.to_nat (len + 1 - resume)) resume start start
                        ltac:(lia) ltac:(lia) ltac:(lia) ltac:(lia)
                        (or_introl eq_refl) Htok) as Hscan.
  destruct (scan _ _ _ _ _ _ _ _ _) as [np fl d|np fp d]; cbn [scan_post] in Hscan.
  - destruct Hscan as (Hnp & Hdq & Hnpb & Hfl & Hflnp & Hnb2 & Hcase).
    rewrite save_portion_plain by (try lia; right; right; exact Hbl).
    cbn [start_place resume_place idx done lines lengths].
    rewrite (wrap_small (start + fl)) by lia.
    rewrite (wrap_small (ix + 1)) by lia.
    assert (Hb1 : np < len \/ start + fl < np -> is_blank (buf_at buf (start + fl)) = true).
    { intros Hlt. destruct Hcase as [[Hc1 Hc2]|[Hc1 Hc2]]; [|exact Hc2].
      rewrite Hc1. apply Hnpb. lia. }
    pose proof (concat_portion_behind pre ls start fl ltac:(lia) ltac:(lia) Hcat) as Hcat1.
    subst d. destruct (Z.eqb_spec np len) as [Hnl|Hnl].
    + right. subst np.
      rewrite (wrap_small (len - (start + fl))) by lia.
      rewrite save_portion_plain;
        [|lia|lia|destruct (Z.eq_dec (len - (start + fl)) 0);
                  [right; left; assumption|right; right; apply Hb1; lia]].
      constructor; cbn [start_place resume_place idx done lines lengths].
      * reflexivity.
      * rewrite (concat_portion_behind pre _ (start + fl) (len - (start + fl)))
          by (lia || assumption).
        replace (start + fl + (len - (start + fl))) with len by lia.
        rewrite Nat2Z.id, firstn_all. reflexivity.
      * rewrite !map_app. cbn [map]. rewrite !portion_length by lia. reflexivity.
    + left. split; [|cbn [start_place]; lia].
      constructor; cbn [start_place resume_place idx done lines lengths].
      * reflexivity.
      * lia.
      * exact Hnb2.
      * lia.
      * destruct ls; discriminate.
      * apply Hb1. lia.
      * exact Hcat1.
      * rewrite map_app. cbn [map]. rewrite portion_length by lia. reflexivity.
  - destruct Hscan as (-> & -> & Hle).
    cbn [start_place resume_place idx done lines lengths].
    right. rewrite (wrap_small (len - start)) by lia.
    rewrite save_portion_plain by (try lia; right; right; exact Hbl).
    constructor; cbn [start_place resume_place idx done lines lengths].
    + reflexivity.
    + rewrite (concat_portion_behind pre ls start (len - start)) by (lia || assumption).
      replace (start + (len - start)) with len by lia.
      rewrite Nat2Z.id, firstn_all. reflexivity.
    + rewrite map_app. cbn [map]. rewrite portion_length by lia. reflexivity.
Qed.

Lemma fold_run_terminates (pre : bytes) (key_len : Z) :
  forall (m : nat) (v : fold_vars),
    fold_run buf pre v -> len - start_place v <= Z.of_nat m ->
    exists fuel r, fold_loop fuel buf len key_len bound v = Some r /\ fold_end buf pre r.
Proof.
  induction m as [|m IH]; intros v Hv Hm;
    destruct (fold_run_step pre key_len v Hv) as [[Hv' Hlt]|Hfin].
  - exfalso. pose proof (run_range _ _ _ Hv') as [? ?]. lia.
  - exists 1%nat, (fold_body buf len key_len bound v).
    cbn [fold_loop]. rewrite (run_done _ _ _ Hv), (end_done _ _ _ Hfin).
    split; [reflexivity|exact Hfin].
  - destruct (IH _ Hv') as (fuel & r & Hr & Hfin); [lia|].
    exists (S fuel), r. cbn [fold_loop]. rewrite (run_done _ _ _ Hv).
    split; [exact Hr|exact Hfin].
  - exists 1%nat, (fold_body buf len key_len bound v).
    cbn [fold_loop]. rewrite (run_done _ _ _ Hv), (end_done _ _ _ Hfin).
    split; [reflexivity|exact Hfin].
Qed.

(** The first pass when the first line has no room: an empty line is
    saved and the scan resumes at byte 0. *)
Lemma first_pass_without_room (key_len : Z) :
  bound <= wrap (key_len + INI_FOLDING_OVERHEAD) ->
  fold_body buf len key_len bound
            {| start_place := 0; resume_place := 0; idx := 0; done := false;
               lines := []; lengths := [] |}
  = {| start_place := 0; resume_place := 0; idx := 1; done := false;
       lines := [[]]; lengths := [0] |}.
Proof.
  intros Hk. unfold fold_body. cbn [start_place resume_place idx done lines lengths Z.eqb].
  gtb_false bound (wrap (key_len + INI_FOLDING_OVERHEAD)).
  change (wrap (0 + 0)) with 0.
  replace (Z.to_nat (len + 1 - 0)) with (S (Z.to_nat len)) by lia.
  cbn [scan]. eqb_false 0 len.
  rewrite !Z.eqb_refl. cbn [andb negb]. rewrite !orb_true_r.
  unfold save_portion. change (wrap (0 - 0)) with 0.
  rewrite !Z.eqb_refl. cbn [negb]. rewrite andb_false_r.
  reflexivity.
Qed.

(** The second pass: the portion that starts the value goes behind a
    space. *)
Lemma second_pass_without_room (key_len : Z) :
  let v := fold_body buf len key_len bound
                     {| start_place := 0; resume_place := 0; idx := 1; done := false;
                        lines := [[]]; lengths := [0] |} in
  (fold_run buf [SP] v /\ 0 < start_place v) \/ fold_end buf [SP] v.
Proof.
  unfold fold_body. cbn [start_place resume_place idx done lines lengths Z.eqb].
  rewrite Z.add_0_r, (wrap_small bound) by lia.
  pose proof (scan_spec buf buf_not_empty ltac:(lia) first_not_blank
                        0 bound ltac:(lia) ltac:(lia)
                        (Z.to_nat (len + 1 - 0)) 0 0 0
                        ltac:(lia) ltac:(lia) ltac:(lia) ltac:(lia)
                        (or_introl eq_refl) ltac:(intros j Hj; lia)) as Hscan.
  assert (Hp0 : forall n, portion 0 n = firstn (Z.to_nat n) buf) by reflexivity.
  destruct (scan _ _ _ _ _ _ _ _ _) as [np fl d|np fp d]; cbn [scan_post] in Hscan.
  - destruct Hscan as (Hnp & Hdq & Hnpb & Hfl & Hflnp & Hnb2 & Hcase).
    rewrite (save_portion_spaced [[]] [0] 0 fl) by (lia || discriminate || assumption).
    cbn [start_place resume_place idx done lines lengths app].
    rewrite Z.add_0_l in *. rewrite (wrap_small fl) by lia.
    change (wrap (1 + 1)) with 2.
    assert (Hb1 : np < len \/ fl < np -> is_blank (buf_at buf fl) = true).
    { intros Hlt. destruct Hcase as [[Hc1 Hc2]|[Hc1 Hc2]]; [|exact Hc2].
      rewrite Hc1. apply Hnpb. lia. }
    assert (Hcat1 : concat [[]; SP :: portion 0 fl] = [SP] ++ firstn (Z.to_nat fl) buf).
    { cbn [concat app]. rewrite app_nil_r, Hp0. reflexivity. }
    subst d. destruct (Z.eqb_spec np len) as [Hnl|Hnl].
    + right. subst np.
      rewrite (wrap_small (len - fl)) by lia.
      rewrite save_portion_plain;
        [|lia|lia|destruct (Z.eq_dec (len - fl) 0);
                  [right; left; assumption|right; right; apply Hb1; lia]].
      constructor; cbn [start_place resume_place idx done lines lengths].
      * reflexivity.
      * rewrite (concat_portion_behind [SP] _ fl (len - fl)) by (lia || assumption).
        replace (fl + (len - fl)) with len by lia.
        rewrite Nat2Z.id, firstn_all. reflexivity.
      * cbn [map app length]. rewrite Nat2Z.inj_succ, !portion_length by lia.
        repeat f_equal; lia.
    + left. split; [|cbn [start_place]; lia].
      constructor; cbn [start_place resume_place idx done lines lengths].
      * reflexivity.
      * lia.
      * exact Hnb2.
      * lia.
      * discriminate.
      * apply Hb1. lia.
      * exact Hcat1.
      * cbn [map app length]. rewrite Nat2Z.inj_succ, portion_length by lia.
        repeat f_equal; lia.
  - destruct Hscan as (-> & -> & Hle).
    cbn [start_place resume_place idx done lines lengths].
    right. rewrite Z.sub_0_r, (wrap_small len) by lia.
    rewrite (save_portion_spaced [[]] [0] 0 len) by (lia || discriminate || assumption).
    constructor; cbn [start_place resume_place idx done lines lengths].
    + reflexivity.
    + cbn [app concat]. rewrite app_nil_r, Hp0, Nat2Z.id, firstn_all. reflexivity.
    + cbn [map app length]. rewrite Nat2Z.inj_succ, portion_length by lia.
      repeat f_equal; lia.
Qed.

Lemma fold_loop_without_room (key_len : Z) :
  bound <= wrap (key_len + INI_FOLDING_OVERHEAD) ->
  exists fuel r,
    fold_loop fuel buf len key_len bound
              {| start_place := 0; resume_place := 0; idx := 0; done := false;
                 lines := []; lengths := [] |} = Some r /\
    fold_end buf [SP] r /\
    exists ls ns, lines r = [] :: ls /\ lengths r = 0 :: ns.
Proof.
  intros Hk.
  assert (H2 : exists fuel r,
             fold_loop fuel buf len key_len bound
                       {| start_place := 0; resume_place := 0; idx := 1; done := false;
                          lines := [[]]; lengths := [0] |} = Some r /\
             fold_end buf [SP] r).
  { destruct (second_pass_without_room key_len) as [[Hrun _]|Hend].
    - destruct (fold_run_terminates [SP] key_len (Z.to_nat len) _ Hrun)
        as (fuel & r & Hr & Hfin).
      { pose proof (run_range _ _ _ Hrun). lia. }
      exists (S fuel), r. split; [exact Hr|exact Hfin].
    - eexists 1%nat, _. cbn [fold_loop done].
      rewrite (end_done _ _ _ Hend). split; [reflexivity|exact Hend]. }
  destruct H2 as (fuel & r & Hr & Hend).
  exists (S fuel), r. cbn [fold_loop done].
  rewrite (first_pass_without_room key_len Hk).
  split; [exact Hr|]. split; [exact Hend|].
  destruct (fold_loop_extends _ _ _ _ _ _ _ Hr) as (ls & ns & Hl & Hn).
  exists ls, ns. split; assumption.
Qed.

End FoldRun.

Lemma value_fold_without_room_aux (buf : bytes) (key_len boundary : Z) :
  buf <> [] ->
  is_blank (buf_at buf 0) = false ->
  0 < boundary -> boundary <= wrap (key_len + INI_FOLDING_OVERHEAD) ->
  Z.of_nat (length buf) + boundary < 2 ^ 32 ->
  exists fuel r, value_fold fuel buf key_len boundary [] [] = Some r.
Proof.
  intros Hne H0 Hb Hk Hov.
  assert (Hpos : 0 < Z.of_nat (length buf)) by (destruct buf; [contradiction|simpl length; lia]).
  destruct (fold_loop_without_room buf boundary Hpos H0 Hb Hov key_len Hk)
    as (fuel & r & Hr & _).
  exists fuel. eexists. unfold value_fold, ref_array_reset, simplebuffer_get_len.
  eqb_false boundary 0. rewrite Hr. reflexivity.
Qed.

(** When the boundary does not exceed the key length plus 3 (as the code
    computes it, in 32 bits), a value that begins with a byte other than
    a blank is folded into an empty first line followed by lines that
    hold the value behind one space: unfolding them does not give the
    value back but the value preceded by a space. *)
Theorem value_fold_without_room (buf : bytes) (key_len boundary : Z) :
  buf <> [] ->
  is_blank (buf_at buf 0) = false ->
  0 < boundary <= wrap (key_len + INI_FOLDING_OVERHEAD) ->
  Z.of_nat (length buf) + boundary < 2 ^ 32 ->
  exists fuel ls ns,
    value_fold fuel buf key_len boundary [] [] = Some ([] :: ls, 0 :: ns) /\
    ns = map (fun f => Z.of_nat (length f)) ls /\
    concat ls = SP :: buf /\
    value_unfold ([] :: ls) (0 :: ns) = Some (SP :: buf).
Proof.
  intros Hne H0 [Hb Hk] Hov.
  assert (Hpos : 0 < Z.of_nat (length buf)) by (destruct buf; [contradiction|simpl length; lia]).
  destruct (fold_loop_without_room buf boundary Hpos H0 Hb Hov key_len Hk)
    as (fuel & r & Hr & [Hd Hcat Hlen] & ls & ns & Hl & Hn).
  exists fuel, ls, ns. rewrite Hl, Hn in *. cbn [map length] in Hlen.
  injection Hlen as Hlen. cbn [concat app] in Hcat.
  split.
  - unfold value_fold, ref_array_reset, simplebuffer_get_len.
    eqb_false boundary 0. rewrite Hr, Hl, Hn. reflexivity.
  - split; [exact Hlen|]. split; [exact Hcat|].
    rewrite value_unfold_parallel by (cbn [length]; rewrite Hlen, length_map; reflexivity).
    rewrite Hlen.
    change (0 :: map (fun f => Z.of_nat (length f)) ls)
      with (map (fun f => Z.of_nat (length f)) ([] :: ls)).
    rewrite stored_fragments_exact. cbn [concat app]. rewrite Hcat. reflexivity.
Qed.

Lemma value_fold_without_room_witness :
  exists fuel ls ns,
    value_fold fuel (str "aaaa bbbb cccc") 7 10 [] [] = Some ([] :: ls, 0 :: ns) /\
    ns = map (fun f => Z.of_nat (length f)) ls /\
    concat ls = SP :: str "aaaa bbbb cccc" /\
    value_unfold ([] :: ls) (0 :: ns) = Some (SP :: str "aaaa bbbb cccc").
Proof.
  apply (value_fold_without_room (str "aaaa bbbb cccc") 7 10).
  - discriminate.
  - reflexivity.
  - vm_compute. split; [reflexivity|discriminate].
  - simpl length. lia.
Defined.

(** ** When the fold returns *)

(** Without 32-bit overflow, [value_fold] returns exactly on the values
    that do not begin with a space or a tab. *)
Theorem value_fold_returns_iff (buf : bytes) (key_len boundary : Z) :
  0 <= key_len ->
  key_len + INI_FOLDING_OVERHEAD < 2 ^ 32 ->
  0 <= boundary ->
  Z.of_nat (length buf) + Z.max boundary 1 < 2 ^ 32 ->
  (exists fuel r, value_fold fuel buf key_len boundary [] [] = Some r) <->
  is_blank (buf_at buf 0) = false.
Proof.
  intros Hk Hk3 Hb Hov. split.
  - intros (fuel & r & Hr). destruct buf as [|c rest]; [reflexivity|].
    change (buf_at (c :: rest) 0) with c.
    destruct (is_blank c) eqn:Hc; [|reflexivity].
    rewrite value_fold_leading_blank in Hr by exact Hc. discriminate.
  - intros H0.
    assert (Hnorm : forall fuel,
               value_fold fuel buf key_len boundary [] []
               = value_fold fuel buf key_len (Z.max boundary 1) [] []).
    { intros fuel. destruct (Z.eq_dec boundary 0) as [->|Hb0]; [reflexivity|].
      rewrite Z.max_l by lia. reflexivity. }
    assert (Hb1 : 0 < Z.max boundary 1) by lia.
    revert Hnorm Hov Hb1. generalize (Z.max boundary 1). intros b Hnorm Hov Hb1.
    destruct buf as [|c rest].
    + exists 1%nat. eexists. apply (value_fold_empty 0).
    + unfold INI_FOLDING_OVERHEAD in *.
      destruct (Z.lt_ge_cases (key_len + 3) b) as [Hroom|Hnoroom].
      * destruct (value_fold_regular (c :: rest) key_len b Hk Hroom Hov H0)
          as (fuel & ls & Hf & _).
        exists fuel. eexists. rewrite Hnorm. exact Hf.
      * destruct (value_fold_without_room_aux (c :: rest) key_len b) as (fuel & r & Hf);
          try assumption; try discriminate.
        -- unfold INI_FOLDING_OVERHEAD. rewrite wrap_small by lia. lia.
        -- exists fuel, r. rewrite Hnorm. exact Hf.
Qed.

Lemma value_fold_returns_iff_witness :
  (exists fuel r, value_fold fuel (str "a b") 3 10 [] [] = Some r) <->
  is_blank (buf_at (str "a b") 0) = false.
Proof.
  apply (value_fold_returns_iff (str "a b") 3 10).
  - lia.
  - unfold INI_FOLDING_OVERHEAD. lia.
  - lia.
  - simpl length. lia.
Defined.

(** A string whose first byte is a space or a tab cannot be stored:
    neither [value_create_new] nor [value_update] returns on it, and
    [value_set_keylen] does not return on an object whose buffer begins
    with such a byte (one built by [value_create_from_refarray] from a
    first line with a leading blank). *)
Theorem leading_blank_blocks_the_object (fuel : nat) (c : ascii) (rest : bytes) :
  is_blank c = true ->
  (forall length origin key_len boundary ic,
      0 < length ->
      value_create_new fuel (c :: rest) length origin key_len boundary ic = None) /\
  (forall vo length origin boundary,
      0 < length ->
      value_update fuel vo (c :: rest) length origin boundary = None) /\
  (forall vo key_len,
      unfolded vo = c :: rest -> value_set_keylen fuel vo key_len = None).
Proof.
  intros Hc.
  assert (Hread : forall length, 0 < length ->
                    simplebuffer_add_raw simplebuffer_alloc (c :: rest) length
                    = c :: firstn (Z.to_nat (length - 1)) rest).
  { intros n Hn. unfold simplebuffer_add_raw, simplebuffer_alloc, read_bytes.
    replace (Z.to_nat n) with (S (Z.to_nat (n - 1))) by lia. reflexivity. }
  split; [|split].
  - intros n origin key_len boundary ic Hn. unfold value_create_new.
    rewrite Hread by exact Hn. cbv beta iota delta [value_create_arrays].
    rewrite value_fold_leading_blank by exact Hc. reflexivity.
  - intros vo n origin boundary Hn. unfold value_update.
    rewrite Hread by exact Hn.
    rewrite value_fold_leading_blank by exact Hc. reflexivity.
  - intros vo key_len Hu. unfold value_set_keylen. rewrite Hu.
    rewrite value_fold_leading_blank by exact Hc. reflexivity.
Qed.

Lemma leading_blank_blocks_the_object_witness :
  (forall length origin key_len boundary ic,
      0 < length ->
      value_create_new 5 (str " a") length origin key_len boundary ic = None) /\
  (forall vo length origin boundary,
      0 < length ->
      value_update 5 vo (str " a") length origin boundary = None) /\
  (forall vo key_len,
      unfolded vo = str " a" -> value_set_keylen 5 vo key_len = None).
Proof.
  apply (leading_blank_blocks_the_object 5 " "%char (str "a")). reflexivity.
Defined.

(** ** A value made of one token *)

Lemma blank_free_at (buf : bytes) (i : Z) :
  blank_free buf = true -> is_blank (buf_at buf i) = false.
Proof.
  intros H. unfold buf_at. destruct (Nat.lt_ge_cases (Z.to_nat i) (length buf)) as [Hi|Hi].
  - unfold blank_free in H. rewrite forallb_forall in H.
    apply negb_true_iff, H, nth_In, Hi.
  - rewrite nth_overflow by exact Hi. reflexivity.
Qed.

(** On a buffer without blanks that ends beyond the preferred folding
    place, the inner loop runs to the end and cuts the whole buffer. *)
Lemma scan_one_token (buf : bytes) (best : Z) :
  blank_free buf = true ->
  0 < best < Z.of_nat (length buf) ->
  Z.of_nat (length buf) < 2 ^ 32 ->
  forall n i np,
    Z.of_nat n = Z.of_nat (length buf) + 1 - i -> 0 <= i <= Z.of_nat (length buf) ->
    scan n buf (Z.of_nat (length buf)) best 0 i 0 np false
    = Scan_break (Z.of_nat (length buf)) (Z.of_nat (length buf)) true.
Proof.
  intros Hfree Hbest Hrange. induction n as [|n IH]; intros i np Hn Hi.
  - exfalso. lia.
  - cbn [scan]. destruct (Z.eqb_spec i (Z.of_nat (length buf))) as [Hil|Hil].
    + subst i.
      replace (Z.of_nat (length buf) >? best) with true by (symmetry; apply Z.gtb_lt; lia).
      cbn [orb]. eqb_false (Z.of_nat (length buf)) 0.
      cbn [Z.eqb negb andb]. rewrite Z.sub_0_r, wrap_small by lia. reflexivity.
    + rewrite blank_free_at by exact Hfree. eqb_false best 0. cbn [orb andb].
      apply IH; lia.
Qed.

(** A value without any blank that is wider than the first line is not
    cut: it is stored whole as the first fragment, and an empty second
    fragment follows it. *)
Theorem fold_one_wide_token (fuel : nat) (buf : bytes) (key_len boundary : Z) :
  blank_free buf = true ->
  0 <= key_len ->
  key_len + INI_FOLDING_OVERHEAD < boundary ->
  boundary < 2 ^ 32 ->
  boundary - key_len - INI_FOLDING_OVERHEAD < Z.of_nat (length buf) ->
  Z.of_nat (length buf) < 2 ^ 32 ->
  value_fold (1 + fuel) buf key_len boundary [] []
  = Some ([buf; []], [Z.of_nat (length buf); 0]).
Proof.
  intros Hfree Hk Hroom Hb Hwide Hrange. unfold INI_FOLDING_OVERHEAD in *.
  apply value_fold_more_fuel.
  unfold value_fold, ref_array_reset, simplebuffer_get_len.
  eqb_false boundary 0.
  cbn [fold_loop done]. unfold fold_body, INI_FOLDING_OVERHEAD.
  cbn [start_place resume_place idx done lines lengths Z.eqb].
  rewrite (wrap_small (key_len + 3)) by lia.
  replace (boundary >? key_len + 3) with true by (symmetry; apply Z.gtb_lt; lia).
  rewrite (wrap_small (boundary - key_len - 3)) by lia.
  rewrite Z.add_0_r, (wrap_small (boundary - key_len - 3)) by lia.
  rewrite (scan_one_token buf (boundary - key_len - 3) Hfree) by lia.
  rewrite (save_portion_plain buf [] [] 0) by (try lia; left; reflexivity).
  cbn [start_place resume_place idx done lines lengths app].
  rewrite Z.add_0_l, (wrap_small (Z.of_nat (length buf))) by lia.
  rewrite Z.sub_diag. change (wrap 0) with 0.
  rewrite (save_portion_plain buf) by (try lia; right; left; reflexivity).
  cbn [lines lengths app]. unfold portion. cbn [Z.to_nat skipn].
  rewrite read_bytes_all. reflexivity.
Qed.

Lemma fold_one_wide_token_witness :
  value_fold 1 (str "aaaaaaaa") 0 4 [] [] = Some ([str "aaaaaaaa"; []], [8; 0]).
Proof.
  apply (fold_one_wide_token 0 (str "aaaaaaaa") 0 4).
  - reflexivity.
  - lia.
  - unfold INI_FOLDING_OVERHEAD. lia.
  - lia.
  - unfold INI_FOLDING_OVERHEAD. simpl length. lia.
  - simpl length. lia.
Defined.

(** ** Values read line by line *)

Lemma add_lines_arrays (items : list (bytes * Z)) :
  forall ls ns,
    add_lines items (ls, ns) = (ls ++ map fst items, ns ++ map snd items).
Proof.
  unfold add_lines. induction items as [|it items IH]; intros ls ns.
  - cbn. now rewrite !app_nil_r.
  - cbn [fold_left map]. unfold value_add_to_arrays at 2, ref_array_append.
    cbn [fst snd]. rewrite IH, <- !app_assoc. reflexivity.
Qed.

Lemma stored_fragments_of_items (items : list (bytes * Z)) :
  stored_fragments (map fst items) (map snd items)
  = map (fun it => read_bytes (fst it) (snd it)) items.
Proof.
  unfold stored_fragments. induction items as [|it items IH]; [reflexivity|].
  cbn [map combine fst snd]. rewrite IH. reflexivity.
Qed.

(** An object made by [value_create_from_refarray] from arrays filled
    with [value_add_to_arrays], one call per line read, holds as its
    value the lines in order, each cut to its length, with nothing
    between them; it keeps the arrays, the line number and the origin it
    was given, and the constructor does not fail. *)
Theorem value_from_lines_read (items : list (bytes * Z)) (line origin key_len boundary : Z)
        (c : option ini_comment) :
  exists vo,
    value_create_from_refarray (fst (add_lines items value_create_arrays))
                               (snd (add_lines items value_create_arrays))
                               line origin key_len boundary c = Some vo /\
    value_get_concatenated vo = concat (map (fun it => read_bytes (fst it) (snd it)) items) /\
    raw_lines vo = map fst items /\
    raw_lengths vo = map snd items /\
    value_get_line vo = line /\
    value_get_origin vo = origin /\
    ic vo = c.
Proof.
  unfold value_create_arrays. rewrite add_lines_arrays. cbn [fst snd app].
  unfold value_create_from_refarray.
  rewrite value_unfold_parallel by (rewrite !length_map; reflexivity).
  rewrite stored_fragments_of_items.
  eexists. split; [reflexivity|]. cbn. repeat split; reflexivity.
Qed.

(** ** [value_unfold] on arrays of any length *)

Lemma last_cons {A} (l : list A) : forall x d, last (x :: l) d = last l x.
Proof.
  induction l as [|y l IH]; intros x d; [reflexivity|].
  change (last (x :: y :: l) d) with (last (y :: l) d).
  rewrite (IH y d), (IH y x). reflexivity.
Qed.

Lemma unfold_loop_any :
  forall rest_l rest_n pre_l pre_n len sb,
    (length pre_n <= length pre_l)%nat ->
    (rest_n <> [] -> length pre_n = length pre_l) ->
    unfold_loop (S (length rest_l)) (pre_l ++ rest_l) (pre_n ++ rest_n) (length pre_l) len sb
    = Some (sb ++ concat (stored_fragments rest_l rest_n) ++
            concat (map (fun l => read_bytes l (last rest_n len))
                        (skipn (length rest_n) rest_l))).
Proof.
  induction rest_l as [|l rest_l IH]; intros rest_n pre_l pre_n len sb Hle Heq.
  - cbn [length]. rewrite unfold_loop_step. unfold ref_array_get.
    rewrite app_nil_r, nth_error_end. unfold stored_fragments.
    rewrite skipn_nil. destruct rest_n; cbn; now rewrite app_nil_r.
  - cbn [length]. rewrite unfold_loop_step. unfold ref_array_get.
    rewrite nth_error_middle. cbv zeta.
    snoc_middle pre_l l rest_l.
    replace (S (length pre_l)) with (length (pre_l ++ [l]))
      by (rewrite length_app; simpl; lia).
    destruct rest_n as [|n rest_n].
    + rewrite app_nil_r.
      replace (nth_error pre_n (length pre_l)) with (@None Z)
        by (symmetry; apply nth_error_None; exact Hle).
      rewrite <- (app_nil_r pre_n) at 1.
      rewrite IH.
      * unfold simplebuffer_add_raw, stored_fragments. rewrite combine_nil.
        cbn. now rewrite <- app_assoc.
      * rewrite length_app. simpl. lia.
      * intros H. contradiction.
    + rewrite <- (Heq ltac:(discriminate)), nth_error_middle.
      snoc_middle pre_n n rest_n.
      rewrite IH.
      * unfold simplebuffer_add_raw, stored_fragments.
        cbn [combine map concat fst snd length skipn].
        rewrite last_cons.
        now rewrite <- !app_assoc.
      * rewrite !length_app. simpl. rewrite (Heq ltac:(discriminate)). lia.
      * intros _. rewrite !length_app. simpl. rewrite (Heq ltac:(discriminate)). lia.
Qed.

(** [value_unfold] never fails, whatever the two arrays: a line that has
    an entry in the length array is cut to it, length entries without a
    line are ignored, and a line without a length entry is cut to the
    last length there is (to 0 when the length array is empty). *)
Theorem value_unfold_any_arrays (ls : ref_array bytes) (ns : ref_array Z) :
  value_unfold ls ns
  = Some (concat (stored_fragments ls ns) ++
          concat (map (fun l => read_bytes l (last ns 0)) (skipn (length ns) ls))).
Proof.
  unfold value_unfold.
  apply (unfold_loop_any ls ns [] [] 0 simplebuffer_alloc).
  - reflexivity.
  - reflexivity.
Qed.

(** ** Creating, then serializing *)

(** A value created for a key of [key_len] bytes, with room for the key
    on the first line, serializes under that key as the comment lines,
    the key, " = " and lines with terminators which, put end to end
    without the terminators, are the value. *)
Theorem value_create_then_serialize (cr : bytes) (buf key : bytes) (origin boundary : Z)
        (c : option ini_comment) :
  Z.of_nat (length key) + INI_FOLDING_OVERHEAD < boundary ->
  Z.of_nat (length buf) + boundary < 2 ^ 32 ->
  is_blank (buf_at buf 0) = false ->
  exists fuel vo ls,
    value_create_new fuel buf (Z.of_nat (length buf)) origin (Z.of_nat (length key))
                     boundary c = Some vo /\
    value_get_concatenated vo = buf /\
    concat ls = buf /\
    value_serialize cr vo key
    = Some (with_terminators cr (comment_lines c) ++ key ++ INI_EQUAL_SIGN ++
            with_terminators cr ls).
Proof.
  intros Hroom Hov H0.
  destruct (value_fold_regular buf (Z.of_nat (length key)) boundary ltac:(lia) Hroom Hov H0)
    as (fuel & ls & Hf & Hcat & _).
  exists fuel. unfold value_create_new.
  change (simplebuffer_add_raw simplebuffer_alloc buf (Z.of_nat (length buf)))
    with (read_bytes buf (Z.of_nat (length buf))).
  rewrite read_bytes_all. cbv beta iota delta [value_create_arrays]. rewrite Hf.
  eexists. exists ls. split; [reflexivity|]. split; [reflexivity|]. split; [exact Hcat|].
  match goal with
  | |- value_serialize cr ?vo ?key = _ =>
      destruct (value_serialize_prefix cr vo key) as [after [Hs Ha]];
      rewrite Hs, Ha by (cbn [raw_lines raw_lengths]; apply length_map)
  end.
  cbn [ic keylen raw_lines raw_lengths].
  rewrite read_bytes_all, stored_fragments_exact. reflexivity.
Qed.

Lemma value_create_then_serialize_witness :
  exists fuel vo ls,
    value_create_new fuel (str "aaaa bbbb cccc") (Z.of_nat (length (str "aaaa bbbb cccc")))
                     0 (Z.of_nat (length (str "foo"))) 10 None = Some vo /\
    value_get_concatenated vo = str "aaaa bbbb cccc" /\
    concat ls = str "aaaa bbbb cccc" /\
    value_serialize [LF] vo (str "foo")
    = Some (with_terminators [LF] (comment_lines None) ++ str "foo" ++ INI_EQUAL_SIGN ++
            with_terminators [LF] ls).
Proof.
  apply (value_create_then_serialize [LF] (str "aaaa bbbb cccc") (str "foo") 0 10 None).
  - unfold INI_FOLDING_OVERHEAD. simpl length. lia.
  - simpl length. lia.
  - reflexivity.
Defined.

(** ** The comment *)

(** The comment of an object is written in front of what the object
    serializes to without it: after [value_extract_comment] the object
    serializes to the key and value lines alone, the comment handed out
    is the one it held, and putting that comment back gives the object
    back. *)
Theorem value_comment_is_a_prefix (cr : bytes) (vo : value_obj) (key : bytes) :
  length (raw_lengths vo) = length (raw_lines vo) ->
  exists body,
    value_serialize cr (fst (value_extract_comment vo)) key = Some body /\
    value_serialize cr vo key
    = Some (with_terminators cr (comment_lines (ic vo)) ++ body) /\
    snd (value_extract_comment vo) = ic vo /\
    ic (fst (value_extract_comment vo)) = None /\
    forall c, ic vo = Some c -> value_put_comment (fst (value_extract_comment vo)) c = vo.
Proof.
  intros Hpar.
  destruct (value_serialize_prefix cr vo key) as [after [Hs Ha]].
  destruct (value_serialize_prefix cr (fst (value_extract_comment vo)) key)
    as [after' [Hs' Ha']].
  cbn [value_extract_comment fst snd ic keylen raw_lines raw_lengths comment_lines] in *.
  rewrite (Ha Hpar) in Hs. rewrite (Ha' Hpar) in Hs'.
  eexists. split; [exact Hs'|]. split; [|split; [reflexivity|split; [reflexivity|]]].
  - rewrite Hs. unfold with_terminators at 3. cbn [map concat app]. reflexivity.
  - intros c Hc. destruct vo. cbn in *. subst. reflexivity.
Qed.

Lemma value_comment_is_a_prefix_witness :
  let vo := {| raw_lines := [str "x"]; raw_lengths := [1]; unfolded := str "x";
               origin := 0; line := 7; keylen := 3; boundary := 80;
               ic := Some [str "# one"; str "# two"] |} in
  exists body,
    value_serialize [LF] (fst (value_extract_comment vo)) (str "key") = Some body /\
    value_serialize [LF] vo (str "key")
    = Some (with_terminators [LF] (comment_lines (ic vo)) ++ body) /\
    snd (value_extract_comment vo) = ic vo /\
    ic (fst (value_extract_comment vo)) = None /\
    forall c, ic vo = Some c -> value_put_comment (fst (value_extract_comment vo)) c = vo.
Proof.
  intros vo. apply (value_comment_is_a_prefix [LF] vo (str "key")). reflexivity.
Defined.

(** ** Changing the key length more than once *)

(** Of two successive [value_set_keylen] only the second shows: the
    object is the one the second call alone gives; and setting again the
    key length an object was created with leaves the object as it is. *)
Theorem value_set_keylen_again (fuel : nat) (vo vo1 : value_obj) (k1 k2 : Z) :
  value_set_keylen fuel vo k1 = Some vo1 ->
  value_set_keylen fuel vo1 k2 = value_set_keylen fuel vo k2 /\
  value_set_keylen fuel vo1 k1 = Some vo1.
Proof.
  unfold value_set_keylen. intros H.
  rewrite value_fold_resets in H.
  destruct (value_fold fuel (unfolded vo) k1 (boundary vo) [] []) as [[ls ns]|] eqn:E;
    [|discriminate].
  injection H as <-. cbn [unfolded boundary raw_lines raw_lengths origin line ic].
  split.
  - rewrite (value_fold_resets fuel (unfolded vo) k2 (boundary vo) ls ns).
    rewrite (value_fold_resets fuel (unfolded vo) k2 (boundary vo) (raw_lines vo)).
    reflexivity.
  - rewrite value_fold_resets, E. reflexivity.
Qed.

Lemma value_set_keylen_again_witness :
  let vo := {| raw_lines := [str "aaaa"; str " bbbb cccc"]; raw_lengths := [4; 10];
               unfolded := str "aaaa bbbb cccc"; origin := 0; line := 5;
               keylen := 3; boundary := 10; ic := None |} in
  let vo1 := {| raw_lines := [[]; str " aaaa bbbb"; str " cccc"]; raw_lengths := [0; 10; 5];
                unfolded := str "aaaa bbbb cccc"; origin := 0; line := 5;
                keylen := 7; boundary := 10; ic := None |} in
  value_set_keylen 3 vo1 3 = value_set_keylen 3 vo 3 /\
  value_set_keylen 3 vo1 7 = Some vo1.
Proof.
  intros vo vo1. apply (value_set_keylen_again 3 vo vo1 7 3). reflexivity.
Defined.

(** ** The lines are filled *)

Lemma token_prefix_segment (l : bytes) :
  forall m a n,
    (m <= n)%nat -> (a + n <= length l)%nat ->
    (forall j, (a <= j < a + m)%nat -> is_blank (nth j l NUL) = false) ->
    (m <= length (token_prefix (firstn n (skipn a l))))%nat.
Proof.
  induction m as [|m IH]; intros a n Hmn Hal H; [lia|].
  destruct n as [|n]; [lia|].
  destruct (skipn a l) as [|x r] eqn:E.
  - apply (f_equal (@length _)) in E. rewrite length_skipn in E. simpl in E. lia.
  - assert (Hx : x = nth a l NUL).
    { rewrite <- (Nat.add_0_r a), <- nth_skipn, E. reflexivity. }
    assert (Hr : r = skipn (S a) l) by (rewrite skipn_S_tl, E; reflexivity).
    cbn [firstn token_prefix]. rewrite Hx, H by lia. cbn [length].
    apply le_n_S. rewrite Hr. apply IH; [lia|lia|].
    intros j Hj. apply H. lia.
Qed.

Lemma leading_word_portion (buf : bytes) (start n r : Z) :
  0 <= start -> start <= r <= start + n ->
  start + n <= Z.of_nat (length buf) ->
  no_blank buf (start + 1) r ->
  r - start <= Z.of_nat (length (leading_word (portion buf start n))).
Proof.
  intros Hs Hr Hl Hnb. destruct (Z.eq_dec r start) as [->|Hne]; [lia|].
  unfold portion, read_bytes.
  replace (Z.to_nat n) with (S (Z.to_nat (n - 1))) by lia.
  destruct (skipn (Z.to_nat start) buf) as [|x t] eqn:E.
  - apply (f_equal (@length _)) in E. rewrite length_skipn in E. simpl in E. lia.
  - assert (Ht : t = skipn (S (Z.to_nat start)) buf) by (rewrite skipn_S_tl, E; reflexivity).
    cbn [firstn leading_word length]. rewrite Ht.
    pose proof (token_prefix_segment buf (Z.to_nat (r - start - 1)) (S (Z.to_nat start))
                                     (Z.to_nat (n - 1))) as T.
    assert (Z.to_nat (r - start - 1)
            <= length (token_prefix (firstn (Z.to_nat (n - 1))
                                            (skipn (S (Z.to_nat start)) buf))))%nat.
    { apply T; [lia|lia|]. intros j Hj. specialize (Hnb (Z.of_nat j)).
      unfold buf_at in Hnb. rewrite Nat2Z.id in Hnb. apply Hnb. lia. }
    lia.
Qed.

Lemma filled_snoc (key_len bound : Z) (ls : list bytes) (p : bytes) :
  filled key_len bound ls ->
  (forall ls' f, ls = ls' ++ [f] ->
                 f <> [] /\
                 line_budget key_len bound (length ls')
                 < Z.of_nat (length f) + Z.of_nat (length (leading_word p))) ->
  filled key_len bound (ls ++ [p]).
Proof.
  intros Hf Hlast i f g Hi Hsi.
  destruct (Nat.lt_ge_cases (S i) (length ls)) as [Hlt|Hge].
  - rewrite nth_error_app1 in Hi, Hsi by lia. exact (Hf i f g Hi Hsi).
  - assert (Hsi' : S i = length ls).
    { destruct (Nat.eq_dec (S i) (length ls)) as [?|Hne]; [assumption|exfalso].
      assert (Hnone : nth_error (ls ++ [p]) (S i) = None)
        by (apply nth_error_None; rewrite length_app; simpl; lia).
      congruence. }
    rewrite nth_error_app1 in Hi by lia.
    rewrite nth_error_app2, Hsi', Nat.sub_diag in Hsi by lia.
    injection Hsi as <-.
    destruct (nth_error_split _ _ Hi) as (l1 & l2 & Hl & Hl1).
    assert (l2 = []).
    { apply (f_equal (@length _)) in Hl. rewrite length_app in Hl. simpl in Hl.
      destruct l2; [reflexivity|simpl in Hl; lia]. }
    subst l2. rewrite <- Hl1. apply (Hlast l1 f Hl).
Qed.

Lemma snoc_inj {A} (l l' : list A) (x x' : A) : l ++ [x] = l' ++ [x'] -> l = l' /\ x = x'.
Proof. intros H. apply app_inj_tail in H. exact H. Qed.

Section FoldFilling.

Variable buf : bytes.
Variables key_len bound : Z.

Local Abbreviation len := (Z.of_nat (length buf)).
Local Abbreviation no_blank := (no_blank buf).
Local Abbreviation portion := (portion buf).

Hypothesis buf_not_empty : 0 < len.
Hypothesis first_not_blank : is_blank (buf_at buf 0) = false.
Hypothesis key_len_nonneg : 0 <= key_len.
Hypothesis key_fits : key_len + INI_FOLDING_OVERHEAD < bound.
Hypothesis no_overflow : len + bound < 2 ^ 32.

(** What a pass appends, with the places it leaves. *)
Lemma fold_body_shape (v : fold_vars) :
  fold_inv buf key_len bound v ->
  let s := start_place v in
  let v' := fold_body buf len key_len bound v in
  (exists np fl,
      0 < fl /\ resume_place v <= s + fl /\ s + fl <= np <= len /\
      s + line_budget key_len bound (length (lines v)) < np /\
      no_blank (s + fl + 1) np /\
      ((done v' = false /\ lines v' = lines v ++ [portion s fl] /\
        start_place v' = s + fl /\ resume_place v' = np) \/
       (done v' = true /\ np = len /\
        lines v' = (lines v ++ [portion s fl]) ++ [portion (s + fl) (len - (s + fl))]))) \/
  (done v' = true /\ lines v' = lines v ++ [portion s (len - s)]).
Proof.
  intros [Hd [Hr1 Hr2] Htok Hidx Hst Hcat Hlen Hok].
  destruct v as [start resume ix dn ls ns].
  cbn [start_place resume_place idx done lines lengths] in *.
  subst dn ix ns.
  assert (Hlsb : ls <> [] -> is_blank (buf_at buf start) = true)
    by (destruct Hst as [[? _]|[_ [_ ?]]]; tauto).
  assert (Hcnt : Z.of_nat (length ls) <= start)
    by (destruct Hst as [[-> ->]|[_ [? _]]]; [simpl; lia|assumption]).
  assert (Hbud : (if Z.of_nat (length ls) =? 0
                  then if bound >? wrap (key_len + INI_FOLDING_OVERHEAD)
                       then wrap (bound - key_len - INI_FOLDING_OVERHEAD)
                       else 0
                  else bound) = line_budget key_len bound (length ls) /\
                 0 < line_budget key_len bound (length ls) <= bound).
  { unfold INI_FOLDING_OVERHEAD in *. destruct ls as [|l ls].
    - cbn [length Z.of_nat Z.eqb line_budget]. unfold first_line_budget, INI_FOLDING_OVERHEAD.
      rewrite !wrap_small by lia.
      replace (bound >? key_len + 3) with true by (symmetry; apply Z.gtb_lt; lia).
      split; lia.
    - eqb_false (Z.of_nat (length (l :: ls))) 0. cbn [length line_budget]. split; lia. }
  destruct Hbud as [Hbud Hbpos].
  unfold fold_body. cbn [start_place resume_place idx done lines lengths].
  rewrite Hbud. set (B := line_budget key_len bound (length ls)) in *.
  rewrite (wrap_small (B + start)) by lia.
  pose proof (scan_spec buf buf_not_empty ltac:(lia) first_not_blank
                        start (B + start) ltac:(lia) ltac:(lia)
                        (Z.to_nat (len + 1 - resume)) resume start start
                        ltac:(lia) ltac:(lia) ltac:(lia) ltac:(lia)
                        (or_introl eq_refl) Htok) as Hscan.
  destruct (scan _ _ _ _ _ _ _ _ _) as [np fl d|np fp d]; cbn [scan_post] in Hscan.
  - destruct Hscan as (Hnp & Hdq & Hnpb & Hfl & Hflnp & Hnb2 & Hcase).
    rewrite save_portion_plain;
      [|lia|lia|destruct ls; [left; reflexivity|right; right; apply Hlsb; discriminate]].
    cbn [start_place resume_place idx done lines lengths].
    rewrite (wrap_small (start + fl)) by lia.
    assert (Hb1 : np < len \/ start + fl < np -> is_blank (buf_at buf (start + fl)) = true).
    { intros Hlt. destruct Hcase as [[Hc1 Hc2]|[Hc1 Hc2]]; [|exact Hc2].
      rewrite Hc1. apply Hnpb. lia. }
    assert (Hres : resume <= start + fl).
    { destruct (Z.le_gt_cases resume (start + fl)) as [?|Hgt]; [assumption|exfalso].
      assert (Hb : is_blank (buf_at buf (start + fl)) = true) by (apply Hb1; lia).
      rewrite Htok in Hb by lia. discriminate. }
    left. exists np, fl.
    split; [exact Hfl|]. split; [exact Hres|]. split; [lia|]. split; [lia|].
    split; [exact Hnb2|].
    subst d. destruct (Z.eqb_spec np len) as [Hnl|Hnl].
    + right. subst np.
      rewrite (wrap_small (len - (start + fl))) by lia.
      rewrite save_portion_plain;
        [|lia|lia|destruct (Z.eq_dec (len - (start + fl)) 0);
                  [right; left; assumption|right; right; apply Hb1; lia]].
      repeat split; reflexivity.
    + left. cbn [start_place resume_place idx done lines lengths].
      repeat split; reflexivity.
  - destruct Hscan as (-> & -> & Hle).
    cbn [start_place resume_place idx done lines lengths].
    right. rewrite (wrap_small (len - start)) by lia.
    rewrite save_portion_plain;
      [|lia|lia|destruct ls; [left; reflexivity|right; right; apply Hlsb; discriminate]].
    split; reflexivity.
Qed.

Lemma fold_filling_step (v : fold_vars) :
  fold_filling buf key_len bound v ->
  (fold_filling buf key_len bound (fold_body buf len key_len bound v) /\
   start_place v < start_place (fold_body buf len key_len bound v)) \/
  (fold_final buf key_len bound (fold_body buf len key_len bound v) /\
   filled key_len bound (lines (fold_body buf len key_len bound v))).
Proof.
  intros [Hinv Hfill Hpend].
  pose proof (inv_range _ _ _ _ Hinv) as [Hr1 Hr2].
  pose proof (inv_token _ _ _ _ Hinv) as Htok.
  assert (Hbound : 0 < bound) by (unfold INI_FOLDING_OVERHEAD in key_fits; lia).
  assert (Hlast : forall n, 0 <= n -> resume_place v <= start_place v + n ->
                            start_place v + n <= len ->
                            forall ls' f, lines v = ls' ++ [f] ->
                                          f <> [] /\
                                          line_budget key_len bound (length ls')
                                          < Z.of_nat (length f) +
                                            Z.of_nat (length (leading_word
                                                                (portion (start_place v) n)))).
  { intros n Hn Hres Hle ls' f Hl. destruct (Hpend ls' f Hl) as [Hne Hb].
    split; [exact Hne|].
    pose proof (leading_word_portion buf (start_place v) n (resume_place v)
                                     ltac:(lia) ltac:(lia) Hle Htok). lia. }
  assert (Hnonempty : forall s n, 0 <= s -> 0 < n -> s + n <= len -> portion s n <> []).
  { intros s n Hs Hn Hle E. apply (f_equal (@length _)) in E.
    pose proof (portion_length buf s n ltac:(lia) ltac:(lia) Hle). simpl in E. lia. }
  pose proof (fold_body_shape v Hinv) as Hshape. cbv zeta in Hshape.
  pose proof (fold_body_spec buf key_len bound buf_not_empty ltac:(lia) first_not_blank
                             key_len_nonneg key_fits no_overflow v Hinv) as Hspec.
  destruct Hshape
    as [(np & fl & Hfl & Hres & Hnp & Hbud & Hnb & [Hgo|Hstop])|[Hd Hl]].
  - (* the loop goes on *)
    destruct Hgo as (Hd & Hl & Hs & Hr).
    destruct Hspec as [[Hinv' Hlt]|Hfin];
      [|rewrite (fin_done _ _ _ _ Hfin) in Hd; discriminate].
    left. split; [|exact Hlt]. constructor.
    + exact Hinv'.
    + rewrite Hl. apply filled_snoc; [exact Hfill|]. apply Hlast; lia.
    + intros ls' f Hl'. rewrite Hl in Hl'. apply snoc_inj in Hl'.
      destruct Hl' as [<- <-]. rewrite Hs, Hr.
      rewrite (portion_length buf) by lia.
      split; [apply Hnonempty; lia|lia].
  - (* the end was met beyond the budget: two portions are saved *)
    destruct Hstop as (Hd & -> & Hl).
    destruct Hspec as [[Hinv' _]|Hfin];
      [rewrite (inv_done _ _ _ _ Hinv') in Hd; discriminate|].
    right. split; [exact Hfin|]. rewrite Hl.
    apply filled_snoc.
    + apply filled_snoc; [exact Hfill|]. apply Hlast; lia.
    + intros ls' f Hl'. apply snoc_inj in Hl'. destruct Hl' as [<- <-].
      split; [apply Hnonempty; lia|].
      rewrite (portion_length buf) by lia.
      pose proof (leading_word_portion buf (start_place v + fl)
                                       (len - (start_place v + fl)) len
                                       ltac:(lia) ltac:(lia) ltac:(lia)) as Hw.
      replace (start_place v + fl + (len - (start_place v + fl))) with len in Hw by lia.
      specialize (Hw Hnb). lia.
  - (* the end was met within the budget *)
    destruct Hspec as [[Hinv' _]|Hfin];
      [rewrite (inv_done _ _ _ _ Hinv') in Hd; discriminate|].
    right. split; [exact Hfin|]. rewrite Hl.
    apply filled_snoc; [exact Hfill|]. apply Hlast; lia.
Qed.

Lemma fold_filling_terminates :
  forall (m : nat) (v : fold_vars),
    fold_filling buf key_len bound v -> len - start_place v <= Z.of_nat m ->
    exists fuel r,
      fold_loop fuel buf len key_len bound v = Some r /\
      fold_final buf key_len bound r /\ filled key_len bound (lines r).
Proof.
  induction m as [|m IH]; intros v Hv Hm;
    pose proof (inv_done _ _ _ _ (fill_inv _ _ _ _ Hv)) as Hd;
    destruct (fold_filling_step v Hv) as [[Hv' Hlt]|[Hfin Hfill]].
  - exfalso. pose proof (inv_range _ _ _ _ (fill_inv _ _ _ _ Hv')) as [? ?]. lia.
  - exists 1%nat, (fold_body buf len key_len bound v).
    cbn [fold_loop]. rewrite Hd, (fin_done _ _ _ _ Hfin).
    split; [reflexivity|]. split; assumption.
  - destruct (IH _ Hv') as (fuel & r & Hr & Hfin); [lia|].
    exists (S fuel), r. cbn [fold_loop]. rewrite Hd.
    split; [exact Hr|exact Hfin].
  - exists 1%nat, (fold_body buf len key_len bound v).
    cbn [fold_loop]. rewrite Hd, (fin_done _ _ _ _ Hfin).
    split; [reflexivity|]. split; assumption.
Qed.

End FoldFilling.

(** For a value that begins with a byte other than a blank, folded with
    room for the key on the first line and without overflow: every line
    that is followed by another is not empty, and its length together
    with the first word of the next line (the blank in front of the word
    included) exceeds its budget, so no line stops short of a word it
    had room for. *)
Theorem fold_fills_the_lines (buf : bytes) (key_len boundary : Z) :
  buf <> [] ->
  is_blank (buf_at buf 0) = false ->
  0 <= key_len ->
  key_len + INI_FOLDING_OVERHEAD < boundary ->
  Z.of_nat (length buf) + boundary < 2 ^ 32 ->
  exists fuel ls ns,
    value_fold fuel buf key_len boundary [] [] = Some (ls, ns) /\
    concat ls = buf /\
    forall i f g,
      nth_error ls i = Some f -> nth_error ls (S i) = Some g ->
      f <> [] /\
      line_budget key_len boundary i
      < Z.of_nat (length f) + Z.of_nat (length (leading_word g)).
Proof.
  intros Hne H0 Hk Hroom Hov.
  assert (Hpos : 0 < Z.of_nat (length buf)) by (destruct buf; [contradiction|simpl length; lia]).
  assert (Hb : 0 < boundary) by (unfold INI_FOLDING_OVERHEAD in Hroom; lia).
  assert (Hinit : fold_filling buf key_len boundary
                    {| start_place := 0; resume_place := 0; idx := 0; done := false;
                       lines := []; lengths := [] |}).
  { constructor.
    - apply fold_inv_initial; assumption || lia.
    - intros i f g Hi. destruct i; discriminate.
    - intros ls' f Hl. cbn [lines] in Hl. destruct ls'; discriminate. }
  destruct (fold_filling_terminates buf key_len boundary Hpos H0 Hk Hroom Hov
                                    (length buf) _ Hinit)
    as (fuel & r & Hr & Hfin & Hfill).
  { cbn [start_place]. lia. }
  exists fuel, (lines r), (lengths r).
  unfold value_fold, ref_array_reset, simplebuffer_get_len.
  eqb_false boundary 0. rewrite Hr.
  split; [reflexivity|]. split; [exact (fin_concat _ _ _ _ Hfin)|exact Hfill].
Qed.

Lemma fold_fills_the_lines_witness :
  exists fuel ls ns,
    value_fold fuel (str "aaaa bbbb cccc") 3 10 [] [] = Some (ls, ns) /\
    concat ls = str "aaaa bbbb cccc" /\
    forall i f g,
      nth_error ls i = Some f -> nth_error ls (S i) = Some g ->
      f <> [] /\
      line_budget 3 10 i < Z.of_nat (length f) + Z.of_nat (length (leading_word g)).
Proof.
  apply (fold_fills_the_lines (str "aaaa bbbb cccc") 3 10).
  - discriminate.
  - reflexivity.
  - lia.
  - unfold INI_FOLDING_OVERHEAD. lia.
  - simpl length. lia.
Defined.
